(** * The snippets of the React Native / TypeScript guides, embedded in Rocq

    The repository is two guide documents, [Guide.tsx] and [KeyPoint.tsx],
    whose code blocks define a handful of small functions: a counter reducer,
    error classes with their type guards and a message dispatcher, a theme
    context with its hook, an API client with its caller, a form updater and
    the [Media] type guards.  Each block is embedded below in a module of its
    own, named after the block; the theorems follow the definitions.

    Conventions of the embedding:
    - a TypeScript [number] is a binary64 floating-point number, [float],
      and [+] and [-] on numbers are the additions and subtractions of that
      format;
    - what the engine decides, and the documents do not, is a parameter:
      the text of a number in a template literal and the messages of the
      [TypeError]s the engine raises ([Js.engine]);
    - a template literal is string concatenation, each hole converted to a
      string in turn;
    - [throw] is the [Throw] outcome of a computation, and [await] is
      sequencing: the snippets are read one call at a time. *)

From Corelib Require Import PrimFloat FloatOps SpecFloat.
From Stdlib Require Import ZArith String List Bool Sorted Permutation.
From stdpp Require Import base decidable countable finite gmap strings pretty.

Local Open Scope Z_scope.
Local Open Scope string_scope.

(** ** Guide.tsx, "Handling State with TypeScript": the counter reducer *)

Module Reducer.

(** An action as the reducer receives it at run time: its [type] tag and its
    [payload].  The union [Action] of the guide is the three tags
    ['INCREMENT'], ['DECREMENT'] and ['RESET']; the [default] branch of the
    switch is there for every other tag.  The payload is read for the first
    two tags only (a ['RESET'] carries none). *)
Record Action := mkAction {
  type : string;
  payload : float
}.

Definition INCREMENT (p : float) : Action := mkAction "INCREMENT" p.
Definition DECREMENT (p : float) : Action := mkAction "DECREMENT" p.
Definition RESET : Action := mkAction "RESET" 0%float.

(** [const counterReducer = (state: number, action: Action): number] *)
Definition counterReducer (state : float) (action : Action) : float :=
  if String.eqb (type action) "INCREMENT" then (state + payload action)%float
  else if String.eqb (type action) "DECREMENT" then (state - payload action)%float
  else if String.eqb (type action) "RESET" then 0%float
  else state.

(** [useReducer(counterReducer, 0)]: the state after a run of dispatches. *)
Definition initialState : float := 0%float.

Definition dispatchAll (actions : list Action) : float :=
  fold_left counterReducer actions initialState.

(** The integer [2^53], beyond which not every integer is a number. *)
Definition two53 : float := 9007199254740992%float.

End Reducer.

(** ** Run-time values, as far as the snippets look at them *)

Module Js.

(** The classes whose instances the snippets tell apart: the built-in
    [Object] and [Error], the two classes that errorHandling.ts declares,
    and any further class, given by its name and by the class it extends
    (a class with no [extends] clause extends [Object]). *)
Inductive cls :=
| Object_
| Error_
| ApiError_
| ValidationError_
| Derived (name : string) (base : cls).

(** [class C extends B]: the class a class extends. *)
Definition extends (c : cls) : option cls :=
  match c with
  | Object_ => None
  | Error_ => Some Object_
  | ApiError_ => Some Error_
  | ValidationError_ => Some Error_
  | Derived _ b => Some b
  end.

Fixpoint cls_eqb (c d : cls) : bool :=
  match c, d with
  | Object_, Object_ => true
  | Error_, Error_ => true
  | ApiError_, ApiError_ => true
  | ValidationError_, ValidationError_ => true
  | Derived n b, Derived n' b' => String.eqb n n' && cls_eqb b b'
  | _, _ => false
  end.

(** The prototype chain of an instance of [c]: [c.prototype] first. *)
Fixpoint protoChain (c : cls) : list cls :=
  match c with
  | Object_ => [Object_]
  | Error_ => [Error_; Object_]
  | ApiError_ => [ApiError_; Error_; Object_]
  | ValidationError_ => [ValidationError_; Error_; Object_]
  | Derived n b => Derived n b :: protoChain b
  end.

(** Primitive values; a [Symbol] is one of them. *)
Inductive prim :=
| PUndefined
| PNull
| PBool (b : bool)
| PNum (n : float)
| PStr (s : string)
| PSym (description : string).

(** The outcome of a call: it returns, or it throws a value. *)
Inductive result (E A : Type) :=
| Return (a : A)
| Throw (e : E).
Arguments Return {E A} a.
Arguments Throw {E A} e.

(** A value of type [unknown]:
    - a primitive;
    - an ordinary object, with its class and its own properties, each a
      data property or an accessor, whose getter returns or throws when the
      property is read;
    - a revoked [Proxy], on which every operation throws a [TypeError].
    What a property holds is a primitive or an object, of which the
    snippets only ask the string it converts to; that conversion runs the
    object's own code, so it returns or throws.
    A live [Proxy], whose traps run code of their own on every operation,
    is no value of this type: nothing below is about one. *)
Inductive value :=
| VPrim (p : prim)
| VObj (c : cls) (props : gmap string slot)
| VRevoked
with slot :=
| Data (h : held)
| Accessor (getter : result value held)
with held :=
| HPrim (p : prim)
| HObject (toString : result value string).

Abbreviation outcome := (result value).

#[global] Instance result_ret {E} : MRet (result E) := fun A a => Return a.
#[global] Instance result_bind {E} : MBind (result E) := fun A B k m =>
  match m with
  | Return a => k a
  | Throw e => Throw e
  end.

(** Why the engine raises a [TypeError] in the snippets. *)
Inductive failure :=
| ReadOfUndefined (p : string)
| ReadOfNull (p : string)
| SymbolToString
| RevokedProxy (operation : string).

(** What the engine decides: the text of a number ([Number::toString]) and
    the messages of its [TypeError]s. *)
Record engine := mkEngine {
  numberToString : float -> string;
  typeErrorMessage : failure -> string
}.

(** [new Error(message)]. *)
Definition new_Error (message : string) : value :=
  VObj Error_ {[ "message" := Data (HPrim (PStr message)) ]}.

(** A truthy value: what an [if (x)] lets through.  The falsy numbers are
    the two zeros and [NaN]. *)
Definition truthy (x : prim) : bool :=
  match x with
  | PUndefined | PNull => false
  | PBool b => b
  | PNum n => negb (is_nan n || is_zero n)
  | PStr s => negb (String.eqb s "")
  | PSym _ => true
  end.

(** What [Error.prototype] holds for the properties the snippets read. *)
Definition errorPrototype (p : string) : held :=
  if String.eqb p "message" then HPrim (PStr "")
  else if String.eqb p "name" then HPrim (PStr "Error")
  else HPrim PUndefined.

Section WithEngine.

Variable E : engine.

(** The [TypeError] the engine raises. *)
Definition typeError (why : failure) : value :=
  VObj (Derived "TypeError" Error_)
    {[ "message" := Data (HPrim (PStr (typeErrorMessage E why))) ]}.

(** [v instanceof C], for a class [C] of the snippets: [C.prototype] is on
    the prototype chain of [v]; a primitive is an instance of nothing, and
    asking a revoked proxy for its prototype throws. *)
Definition instanceOf (v : value) (C : cls) : outcome bool :=
  match v with
  | VPrim _ => Return false
  | VObj c _ => Return (existsb (cls_eqb C) (protoChain c))
  | VRevoked => Throw (typeError (RevokedProxy "getPrototypeOf"))
  end.

(** [v.p]: reading a property of [undefined] or [null] throws, the other
    primitives have none of the properties that the snippets read; on an
    object it is the own data property, or what the own getter returns or
    throws, or else what the prototype chain gives. *)
Definition get (v : value) (p : string) : outcome held :=
  match v with
  | VPrim PUndefined => Throw (typeError (ReadOfUndefined p))
  | VPrim PNull => Throw (typeError (ReadOfNull p))
  | VPrim _ => Return (HPrim PUndefined)
  | VObj c props =>
      match props !! p with
      | Some (Data h) => Return h
      | Some (Accessor getter) => getter
      | None =>
          if existsb (cls_eqb Error_) (protoChain c)
          then Return (errorPrototype p)
          else Return (HPrim PUndefined)
      end
  | VRevoked => Throw (typeError (RevokedProxy "get"))
  end.

(** A hole [${x}] of a template literal: a [Symbol] does not convert, an
    object converts as its own code decides. *)
Definition hole (x : held) : outcome string :=
  match x with
  | HPrim PUndefined => Return "undefined"
  | HPrim PNull => Return "null"
  | HPrim (PBool true) => Return "true"
  | HPrim (PBool false) => Return "false"
  | HPrim (PNum n) => Return (numberToString E n)
  | HPrim (PStr s) => Return s
  | HPrim (PSym _) => Throw (typeError SymbolToString)
  | HObject toString => toString
  end.

End WithEngine.

(** An engine to run examples with.  Its text of a number is the
    language's for [NaN], the infinities, the zeros and the integers up to
    [2^53] in magnitude; for the other numbers it is a question mark and
    no model of the language.  Its messages are those of one engine. *)
Definition decimal (n : float) : string :=
  match Prim2SF n with
  | S754_zero _ => "0"
  | S754_infinity false => "Infinity"
  | S754_infinity true => "-Infinity"
  | S754_nan => "NaN"
  | S754_finite negative m e =>
      let sign := if negative then "-" else "" in
      match e with
      | Zneg k =>
          if (Zpos m mod 2 ^ Zpos k =? 0)%Z
          then sign +:+ pretty (Zpos m / 2 ^ Zpos k)%Z
          else "?"
      | _ =>
          if (Zpos m * 2 ^ e <=? 2 ^ 53)%Z
          then sign +:+ pretty (Zpos m * 2 ^ e)%Z
          else "?"
      end
  end.

Definition sampleMessage (why : failure) : string :=
  match why with
  | ReadOfUndefined p =>
      "Cannot read properties of undefined (reading '" +:+ p +:+ "')"
  | ReadOfNull p =>
      "Cannot read properties of null (reading '" +:+ p +:+ "')"
  | SymbolToString => "Cannot convert a Symbol value to a string"
  | RevokedProxy operation =>
      "Cannot perform '" +:+ operation +:+ "' on a proxy that has been revoked"
  end.

Definition sampleEngine : engine := mkEngine decimal sampleMessage.


End Js.

(** ** KeyPoint.tsx, errorHandling.ts: error classes, guards, dispatcher *)

Module ErrorHandling.
Import Js.

(** [new ApiError(message, status)]: [super(message)], then the two
    assignments of the constructor. *)
Definition new_ApiError (message : string) (status : float) : value :=
  VObj ApiError_
    (<["status" := Data (HPrim (PNum status))]>
       (<["name" := Data (HPrim (PStr "ApiError"))]>
          {[ "message" := Data (HPrim (PStr message)) ]})).

(** [new ValidationError(message, field)]. *)
Definition new_ValidationError (message : string) (field : string) : value :=
  VObj ValidationError_
    (<["field" := Data (HPrim (PStr field))]>
       (<["name" := Data (HPrim (PStr "ValidationError"))]>
          {[ "message" := Data (HPrim (PStr message)) ]})).

Section WithEngine.

Variable E : engine.

(** [export function isApiError(error: unknown): error is ApiError] *)
Definition isApiError (error : value) : outcome bool :=
  instanceOf E error ApiError_.

(** [export function isValidationError(error: unknown): error is ValidationError] *)
Definition isValidationError (error : value) : outcome bool :=
  instanceOf E error ValidationError_.

(** [export function handleError(error: unknown): string].  In a template
    literal each expression is evaluated and converted before the next. *)
Definition handleError (error : value) : outcome string :=
  api ← isApiError error;
  if api : bool then
    status ← get E error "status";
    status ← hole E status;
    message ← get E error "message";
    message ← hole E message;
    mret ("API Error (" +:+ status +:+ "): " +:+ message)
  else
    validation ← isValidationError error;
    if validation : bool then
      field ← get E error "field";
      field ← hole E field;
      message ← get E error "message";
      message ← hole E message;
      mret ("Validation Error in " +:+ field +:+ ": " +:+ message)
    else
      isError ← instanceOf E error Error_;
      if isError : bool then
        message ← get E error "message";
        message ← hole E message;
        mret ("Error: " +:+ message)
      else
        mret "An unknown error occurred".



End WithEngine.

(** What "[e] is an instance of [C]" means, said without the prototype
    chain: [e] is an object whose class is [C] or extends it, directly or
    through other classes. *)
Inductive subclass : cls -> cls -> Prop :=
| subclass_refl c : subclass c c
| subclass_extends c b d : extends c = Some b -> subclass b d -> subclass c d.


End ErrorHandling.

(** ** KeyPoint.tsx, ThemeContext.tsx: the theme provider and its hook *)

Module ThemeContext.
Import Js.

(** [type Theme = 'light' | 'dark' | 'system'] *)
Inductive Theme := light | dark | system.

Record ThemeColors := mkColors {
  background : string;
  text : string;
  primary : string;
  secondary : string
}.

(** [ThemeContextType], without its [setTheme] member: that one is the
    setter of the provider's state, [setTheme] below. *)
Record ThemeContextType := mkContext {
  theme : Theme;
  colors : ThemeColors
}.

(** [const defaultColors: Record<Theme, ThemeColors>] *)
Definition defaultColors (t : Theme) : ThemeColors :=
  match t with
  | light => mkColors "#FFFFFF" "#000000" "#007AFF" "#5856D6"
  | dark => mkColors "#000000" "#FFFFFF" "#0A84FF" "#5E5CE6"
  | system => mkColors "#FFFFFF" "#000000" "#007AFF" "#5856D6"
  end.

(** [ThemeProvider]: its state is the [theme] of [useState<Theme>('light')];
    each render supplies [value] to the context. *)
Definition initialTheme : Theme := light.

Definition value (theme : Theme) : ThemeContextType :=
  {| theme := theme; colors := defaultColors theme |}.

(** [setTheme(t)]: the state setter; the provider renders again with the
    new state. *)
Definition setTheme (t : Theme) (state : Theme) : Theme := t.

(** The context value after [setTheme(t)] was called on the provider that
    supplied [v]. *)
Definition afterSetTheme (v : ThemeContextType) (t : Theme) : ThemeContextType :=
  value (setTheme t (theme v)).

(** The components above a consumer, nearest first.  [ThemeContext] is not
    exported, so the only component that renders [ThemeContext.Provider] is
    [ThemeProvider]. *)
Inductive ancestor :=
| ThemeProvider (state : Theme)
| Component (name : string).

(** [createContext<ThemeContextType | undefined>(undefined)] and
    [useContext(ThemeContext)]: the value of the nearest provider above, or
    the default, [undefined]. *)
Definition defaultValue : option ThemeContextType := None.

Fixpoint useContext (ancestors : list ancestor) : option ThemeContextType :=
  match ancestors with
  | [] => defaultValue
  | ThemeProvider state :: _ => Some (value state)
  | Component _ :: above => useContext above
  end.

(** [export const useTheme = (): ThemeContextType] *)
Definition useTheme (ancestors : list ancestor) : outcome ThemeContextType :=
  match useContext ancestors with
  | None => Throw (new_Error "useTheme must be used within a ThemeProvider")
  | Some context => Return context
  end.

Definition isProvider (a : ancestor) : Prop :=
  match a with ThemeProvider _ => True | Component _ => False end.

(** A predicate on the context value that holds of the first value the
    provider supplies and is kept by every [setTheme]. *)
Definition preserved (P : ThemeContextType -> Prop) : Prop :=
  P (value initialTheme) /\ forall v t, P v -> P (afterSetTheme v t).

(** The context value pairs the theme with its colours. *)
Definition paired (v : ThemeContextType) : Prop :=
  colors v = defaultColors (theme v).

(** "No invariant holds across the operations": the only predicates that
    are preserved are the ones that say nothing, being true of every value
    of the type. *)
Definition no_invariant : Prop :=
  forall P : ThemeContextType -> Prop, preserved P -> forall v, P v.

End ThemeContext.

(** ** Guide.tsx, "API and Async Operations": [fetchUser] and its caller *)

Module Api.
Import Js.

(** [interface User] *)
Record User := mkUser {
  id : string;
  name : string;
  email : string;
  createdAt : string
}.

(** What the snippet reads of a [Response]: [ok], [status], and how
    [response.json()] settles. *)
Record Response := mkResponse {
  ok : bool;
  status : float;
  json : outcome User
}.

(** The calls the two functions make on names they do not define: the
    console, and the three state setters.  A run leaves a trace of them. *)
Inductive call :=
| console_error (label : string) (error : value)
| setUser (user : User)
| setError (message : held)
| setLoading (loading : bool).

(** An [async] body, one [await] after the other: from the trace so far to
    an outcome and the trace after it. *)
Definition M (A : Type) : Type := list call -> outcome A * list call.

Definition ret {A} (a : A) : M A := fun tr => (Return a, tr).

Definition throw {A} (e : value) : M A := fun tr => (Throw e, tr).

Definition bind {A B} (m : M A) (k : A -> M B) : M B :=
  fun tr =>
    match m tr with
    | (Return a, tr') => k a tr'
    | (Throw e, tr') => (Throw e, tr')
    end.

(** [await p] for a promise that settles as [o]. *)
Definition await {A} (o : outcome A) : M A := fun tr => (o, tr).

Definition emit (c : call) : M unit := fun tr => (Return tt, (tr ++ [c])%list).

(** [try { body } catch (error) { handler }] *)
Definition tryCatch {A} (body : M A) (handler : value -> M A) : M A :=
  fun tr =>
    match body tr with
    | (Return a, tr') => (Return a, tr')
    | (Throw e, tr') => handler e tr'
    end.

(** [try { body } finally { final }]: [final] runs either way, and the
    outcome is the body's unless [final] throws. *)
Definition tryFinally {A} (body : M A) (final : M unit) : M A :=
  fun tr =>
    match body tr with
    | (r, tr') =>
        match final tr' with
        | (Return _, tr'') => (r, tr'')
        | (Throw e, tr'') => (Throw e, tr'')
        end
    end.

#[global] Instance M_ret : MRet M := @ret.
#[global] Instance M_bind : MBind M := fun A B k m => bind m k.

Section WithFetch.

Variable E : engine.

(** The global [fetch]: how the request for a URL settles. *)
Variable fetch : string -> outcome Response.

(** [const fetchUser = async (userId: string): Promise<User>] *)
Definition fetchUser (userId : string) : M User :=
  tryCatch
    (response ← await (fetch ("https://api.example.com/users/" +:+ userId));
     if negb (ok response) then
       throw (new_Error ("HTTP error: " +:+ numberToString E (status response)))
     else
       data ← await (json response);
       ret data)
    (fun error =>
       emit (console_error "Error fetching user:" error);;
       throw error).

(** [const loadUserData = async () => ...] *)
Definition loadUserData : M unit :=
  tryFinally
    (tryCatch
       (user ← fetchUser "123";
        emit (setUser user))
       (fun error =>
          message ← await (get E error "message");
          emit (setError message)))
    (emit (setLoading false)).

End WithFetch.

(** A [fetch] that settles every request with the response [r], as a
    server that answers every URL alike. *)
Definition respondsWith (r : Response) : string -> outcome Response :=
  fun _ => Return r.

(** "No error of [fetchUser] is received by [loadUserData]": whenever
    [fetchUser] throws, the run of [loadUserData] makes no call but the ones
    [fetchUser] made and the [setLoading(false)] of its [finally]. *)
Definition no_error_reaches_caller (E : engine) : Prop :=
  forall fetch tr e tr',
    fetchUser E fetch "123" tr = (Throw e, tr') ->
    snd (loadUserData E fetch tr) = (tr' ++ [setLoading false])%list.

End Api.

(** ** Guide.tsx, "Form Handling with TypeScript": [updateField] *)

Module Form.
Import Js.

(** [interface LoginForm] *)
Record LoginForm := mkLoginForm {
  email : string;
  password : string;
  rememberMe : bool
}.

(** [keyof LoginForm] *)
Inductive key := key_email | key_password | key_rememberMe.

#[global] Instance key_eq_dec : EqDecision key.
Proof. solve_decision. Defined.

#[global] Instance key_countable : Countable key.
Proof.
  refine (inj_countable'
    (fun k => match k with key_email => 0%nat | key_password => 1%nat
                      | key_rememberMe => 2%nat end)
    (fun n => match n with 0%nat => key_email | 1%nat => key_password
                      | _ => key_rememberMe end) _).
  intros []; reflexivity.
Defined.

(** [LoginForm[T]] *)
Definition fieldType (k : key) : Type :=
  match k with
  | key_email => string
  | key_password => string
  | key_rememberMe => bool
  end.

(** [form[k]] *)
Definition get (k : key) (form : LoginForm) : fieldType k :=
  match k with
  | key_email => email form
  | key_password => password form
  | key_rememberMe => rememberMe form
  end.

(** [{ ...prev, [field]: value }] on a form *)
Definition spread (prev : LoginForm) (field : key) : fieldType field -> LoginForm :=
  match field with
  | key_email => fun value =>
      {| email := value; password := password prev; rememberMe := rememberMe prev |}
  | key_password => fun value =>
      {| email := email prev; password := value; rememberMe := rememberMe prev |}
  | key_rememberMe => fun value =>
      {| email := email prev; password := password prev; rememberMe := value |}
  end.

(** [FormErrors = Partial<Record<keyof LoginForm, string>>]: a key may be
    absent, or present and hold a message or [undefined]
    ([Some None]). *)
Abbreviation FormErrors := (gmap key (option string)).

(** [errors[field]]: an absent key reads as [undefined] too. *)
Definition read (errors : FormErrors) (field : key) : prim :=
  match errors !! field with
  | Some (Some message) => PStr message
  | Some None | None => PUndefined
  end.

(** The two [useState] cells of the component. *)
Record State := mkState {
  form : LoginForm;
  errors : FormErrors
}.

Definition setForm (f : LoginForm -> LoginForm) (st : State) : State :=
  {| form := f (form st); errors := errors st |}.

Definition setErrors (f : FormErrors -> FormErrors) (st : State) : State :=
  {| form := form st; errors := f (errors st) |}.

(** [updateField] as created by a render that saw [errors]: the test reads
    the [errors] of that render, the two updaters work on the state at the
    time they run. *)
Definition updateField (errors : FormErrors) (field : key)
    (value : fieldType field) (st : State) : State :=
  let st := setForm (fun prev => spread prev field value) st in
  if truthy (read errors field) then
    setErrors (fun prev => <[field := None]> prev) st
  else st.

End Form.

(** ** Guide.tsx, "Type Guards": the [Media] union *)

Module TypeGuards.
Import Js.

(** [type Media = PhotoMedia | VideoMedia]: the two interfaces, each with
    its fields; the [type] field is the tag. *)
Inductive Media :=
| PhotoMedia (uri : string) (width height : float)
| VideoMedia (uri : string) (duration : float) (thumbnail : string).

(** The property reads of the snippet; a field the object does not have
    reads as [undefined]. *)
Definition type (media : Media) : string :=
  match media with
  | PhotoMedia _ _ _ => "photo"
  | VideoMedia _ _ _ => "video"
  end.

Definition uri (media : Media) : prim :=
  match media with
  | PhotoMedia u _ _ => PStr u
  | VideoMedia u _ _ => PStr u
  end.

Definition width (media : Media) : prim :=
  match media with
  | PhotoMedia _ w _ => PNum w
  | VideoMedia _ _ _ => PUndefined
  end.

Definition height (media : Media) : prim :=
  match media with
  | PhotoMedia _ _ h => PNum h
  | VideoMedia _ _ _ => PUndefined
  end.

Definition duration (media : Media) : prim :=
  match media with
  | PhotoMedia _ _ _ => PUndefined
  | VideoMedia _ d _ => PNum d
  end.

Definition thumbnail (media : Media) : prim :=
  match media with
  | PhotoMedia _ _ _ => PUndefined
  | VideoMedia _ _ t => PStr t
  end.

(** [function isPhoto(media: Media): media is PhotoMedia] *)
Definition isPhoto (media : Media) : bool :=
  String.eqb (type media) "photo".

(** [function isVideo(media: Media): media is VideoMedia] *)
Definition isVideo (media : Media) : bool :=
  String.eqb (type media) "video".

(** The elements [MediaItem] renders. *)
#[warnings="-register-all"]
Inductive Element :=
| Image (source_uri : prim) (style : option (prim * prim))
| Text (children : list prim)
| View (children : list Element).

Definition photoElement (media : Media) : Element :=
  Image (uri media) (Some (width media, height media)).

Definition videoElement (media : Media) : Element :=
  View [ Image (thumbnail media) None;
         Text [PStr "Duration: "; duration media; PStr "s"] ].

(** [const MediaItem: React.FC<{ media: Media }>]; [None] is the [null] of
    the exhaustiveness branch. *)
Definition MediaItem (media : Media) : option Element :=
  if isPhoto media then Some (photoElement media)
  else if isVideo media then Some (videoElement media)
  else None.

End TypeGuards.

(** ** The code blocks of the two documents and the names they use *)

Module Snippets.

(** A TypeScript code block: the document and the heading (or file label)
    it stands under, the names its [import]s bind, the names it declares at
    its top level ([const], [function], [class], [interface], [type],
    [enum]), and the names it mentions outside property positions that are
    not bound by a parameter or a local declaration. *)
Record Snippet := mkSnippet {
  document : string;
  heading : string;
  imports : list string;
  declares : list string;
  uses : list string
}.

Definition Guide (heading : string) := mkSnippet "Guide.tsx" heading.
Definition KeyPoint (heading : string) := mkSnippet "KeyPoint.tsx" heading.

Definition componentProps := Guide "Component Props"
  []
  ["GreetingProps"; "Greeting"]
  ["React"; "GreetingProps"; "TouchableOpacity"; "Text"].

Definition stylingTypes := Guide "Styling Types"
  ["StyleSheet"; "ViewStyle"; "TextStyle"; "ImageStyle"]
  ["Styles"; "styles"]
  ["ViewStyle"; "TextStyle"; "ImageStyle"; "StyleSheet"; "Styles"].

Definition eventHandling := Guide "Event Handling"
  ["NativeSyntheticEvent"; "TextInputChangeEventData"; "GestureResponderEvent"]
  ["handleChange"; "handlePress"]
  ["NativeSyntheticEvent"; "TextInputChangeEventData"; "console";
   "GestureResponderEvent"].

Definition builtinComponentProps := Guide "Built-in Component Props"
  ["ViewProps"; "TextProps"; "TextInputProps"; "TouchableOpacityProps"]
  ["CustomButtonProps"; "CustomButton"]
  ["TouchableOpacityProps"; "React"; "CustomButtonProps"].

Definition handlingState := Guide "Handling State with TypeScript"
  []
  ["count"; "setCount"; "UserState"; "user"; "setUser"; "Action";
   "counterReducer"; "state"; "dispatch"]
  ["useState"; "UserState"; "Action"; "useReducer"; "counterReducer"].

Definition reactNavigation := Guide "TypeScript with React Navigation"
  ["NavigationContainer"; "createStackNavigator"; "StackNavigationProp";
   "RouteProp"]
  ["RootStackParamList"; "Stack"; "ProfileScreenNavigationProp";
   "ProfileScreenRouteProp"; "ProfileScreenProps"; "ProfileScreen"]
  ["createStackNavigator"; "RootStackParamList"; "StackNavigationProp";
   "RouteProp"; "ProfileScreenNavigationProp"; "ProfileScreenRouteProp";
   "React"; "ProfileScreenProps"; "View"; "Text"; "Button"].

Definition expoApis := Guide "Working with Expo APIs"
  ["Location"; "ImagePicker"]
  ["getLocation"; "pickImage"]
  ["Location"; "console"; "ImagePicker"].

Definition apiAndAsync := Guide "API and Async Operations"
  []
  ["User"; "fetchUser"; "loadUserData"]
  ["Promise"; "User"; "fetch"; "Error"; "console"; "fetchUser"; "setUser";
   "setError"; "setLoading"].

Definition customTypes := Guide "Custom Type Definitions and Utilities"
  []
  ["ThemeMode"; "Theme"; "Nullable"; "LoadingState"; "createInitialState";
   "userState"]
  ["ThemeMode"; "Nullable"; "LoadingState"; "createInitialState"; "User"].

Definition formHandling := Guide "Form Handling with TypeScript"
  []
  ["LoginForm"; "FormErrors"; "form"; "setForm"; "errors"; "setErrors";
   "updateField"]
  ["Partial"; "Record"; "LoginForm"; "useState"; "FormErrors"; "setForm";
   "errors"; "setErrors"].

Definition genericComponents := Guide "Generic Components"
  []
  ["ListProps"; "List"]
  ["React"; "ListProps"; "ScrollView"; "View"; "List"; "users"; "Text"].

Definition typeGuards := Guide "Type Guards"
  []
  ["PhotoMedia"; "VideoMedia"; "Media"; "isPhoto"; "isVideo"; "MediaItem"]
  ["PhotoMedia"; "VideoMedia"; "Media"; "React"; "isPhoto"; "Image";
   "isVideo"; "View"; "Text"].

Definition bestPracticeComponent := KeyPoint "BestPracticeComponent.tsx"
  ["React"; "useState"; "useEffect"; "View"; "Text"]
  ["Props"; "BestPracticeComponent"]
  ["React"; "Props"; "useState"; "View"; "Text"; "BestPracticeComponent"].

Definition container := KeyPoint "Container.tsx"
  ["React"; "View"; "StyleSheet"]
  ["ContainerProps"; "Container"; "styles"]
  ["React"; "ContainerProps"; "View"; "styles"; "StyleSheet"; "Container"].

Definition typesIndex := KeyPoint "index.ts (types)"
  []
  ["User"; "Product"; "ApiResponse"; "ButtonProps"]
  [].

(** The barrel file only re-exports from other modules: it binds no name. *)
Definition barrelIndex := KeyPoint "index.ts (barrel exports)"
  [] [] [].

Definition reduxTypes := KeyPoint "types.ts"
  []
  ["ActionTypes"; "Todo"; "AddTodoAction"; "ToggleTodoAction";
   "RemoveTodoAction"; "TodoActions"; "TodoState"; "RootState"]
  ["ActionTypes"; "AddTodoAction"; "ToggleTodoAction"; "RemoveTodoAction";
   "Todo"; "TodoState"].

Definition themeContext := KeyPoint "ThemeContext.tsx"
  ["React"; "createContext"; "useContext"; "useState"]
  ["Theme"; "ThemeColors"; "ThemeContextType"; "defaultColors";
   "ThemeContext"; "ThemeProvider"; "useTheme"]
  ["Theme"; "ThemeColors"; "Record"; "createContext"; "ThemeContextType";
   "React"; "useState"; "defaultColors"; "ThemeContext"; "useContext";
   "Error"].

Definition memoizedComponent := KeyPoint "MemoizedComponent.tsx"
  ["React"; "Text"]
  ["Props"; "MemoizedComponent"]
  ["React"; "Props"; "Text"; "MemoizedComponent"].

Definition useCallbackExample := KeyPoint "useCallbackExample.tsx"
  ["useCallback"; "useMemo"]
  ["Item"; "useItemHandlers"]
  ["Item"; "useCallback"; "console"; "useMemo"].

Definition buttonTest := KeyPoint "Button.test.tsx"
  ["React"; "render"; "fireEvent"; "Button"]
  []
  ["describe"; "it"; "jest"; "render"; "Button"; "expect"; "fireEvent"].

Definition utilityTypes := KeyPoint "utilityTypes.ts"
  []
  ["User"; "PublicUser"; "UserProfile"; "UserUpdate"; "RequiredUserFields";
   "ReadOnlyUser"; "UserRole"; "UserMap"]
  ["Date"; "Omit"; "User"; "Pick"; "Partial"; "UserProfile"; "Required";
   "Readonly"; "Record"; "PublicUser"].

Definition errorHandling := KeyPoint "errorHandling.ts"
  []
  ["ApiError"; "ValidationError"; "isApiError"; "isValidationError";
   "handleError"]
  ["Error"; "ApiError"; "ValidationError"; "isApiError";
   "isValidationError"].

Definition snippets : list Snippet :=
  [ componentProps; stylingTypes; eventHandling; builtinComponentProps;
    handlingState; reactNavigation; expoApis; apiAndAsync; customTypes;
    formHandling; genericComponents; typeGuards;
    bestPracticeComponent; container; typesIndex; barrelIndex; reduxTypes;
    themeContext; memoizedComponent; useCallbackExample; buttonTest;
    utilityTypes; errorHandling ].

Definition mem (n : string) (l : list string) : bool :=
  List.existsb (String.eqb n) l.

(** The names a block uses and does not bind itself. *)
Definition free (s : Snippet) : list string :=
  List.filter (fun n => negb (mem n (imports s ++ declares s)%list)) (uses s).

Definition same (s s' : Snippet) : bool :=
  String.eqb (document s) (document s') && String.eqb (heading s) (heading s').

(** Block [s] refers to the name [n] of another block [s'] of its
    document: [n] is free in [s] and declared by [s']. *)
Definition refers (s s' : Snippet) (n : string) : bool :=
  String.eqb (document s) (document s') && negb (same s s')
  && mem n (free s) && mem n (declares s').

(** Every such reference among the blocks [l]. *)
Definition references (l : list Snippet) : list (Snippet * string * Snippet) :=
  List.flat_map (fun s =>
    List.flat_map (fun s' =>
      List.map (fun n => (s, n, s')) (List.filter (refers s s') (free s))) l) l.

(** "Every code block is standalone". *)
Definition standalone : Prop :=
  forall s s' n, In s snippets -> In s' snippets -> refers s s' n = false.

End Snippets.

(** ** Guide.tsx, "Component Props": [Greeting] *)

Module Components.
Import Js.

Section WithHandler.

Variable E : engine.

(** The type of the [onPress] callback, which [Greeting] only passes on. *)
Variable handler : Type.

#[warnings="-register-all"]
Inductive Element :=
| TouchableOpacity (onPress : handler) (children : list Element)
| Text (children : list prim).

(** [age?: number] *)
Definition optional (age : option float) : prim :=
  match age with
  | Some n => PNum n
  | None => PUndefined
  end.

(** The text of a number or of [undefined] in a template literal. *)
Definition text (x : prim) : string :=
  match x with
  | PNum n => numberToString E n
  | _ => "undefined"
  end.

(** [const Greeting: React.FC<GreetingProps>]: the children of the [Text]
    are the two literals, [name] and the conditional. *)
Definition Greeting (name : string) (age : option float) (onPress : handler) : Element :=
  TouchableOpacity onPress
    [ Text [ PStr "Hello, "; PStr name; PStr "! ";
             PStr (if truthy (optional age)
                   then "You are " +:+ text (optional age) +:+ " years old."
                   else "") ] ].

End WithHandler.

End Components.

(** ** Guide.tsx, "Working with Expo APIs": [getLocation] *)

Module Expo.
Import Js.

Section WithNumbers.

(** The type of a coordinate; [getLocation] only passes them on. *)
Variable number : Type.

(** What the snippet reads of a [Location.LocationObject]. *)
Record LocationObject := mkLocation {
  latitude : number;
  longitude : number
}.

Inductive logged :=
| LStr (s : string)
| LNum (n : number).

(** The calls [getLocation] makes on the two libraries and the console. *)
Inductive call :=
| requestForegroundPermissionsAsync
| getCurrentPositionAsync
| console_log (args : list logged).

Definition M (A : Type) : Type := list call -> outcome A * list call.

#[local] Instance M_ret : MRet M := fun A a tr => (Return a, tr).
#[local] Instance M_bind : MBind M := fun A B k m tr =>
  match m tr with
  | (Return a, tr') => k a tr'
  | (Throw e, tr') => (Throw e, tr')
  end.

(** [await f()]: the call is made, and the promise settles as [o]. *)
Definition perform {A} (c : call) (o : outcome A) : M A :=
  fun tr => (o, (tr ++ [c])%list).

(** How the two library calls settle: the [status] of the permission
    response, and the position. *)
Variable permission : outcome string.
Variable position : outcome LocationObject.

(** [const getLocation = async () => ...] *)
Definition getLocation : M unit :=
  status ← perform requestForegroundPermissionsAsync permission;
  if negb (String.eqb status "granted") then
    perform (console_log [LStr "Permission denied"]) (Return tt)
  else
    location ← perform getCurrentPositionAsync position;
    perform (console_log [LNum (latitude location); LNum (longitude location)])
      (Return tt).

End WithNumbers.

End Expo.

(** ** KeyPoint.tsx, useCallbackExample.tsx: [useItemHandlers] *)

Module Hooks.

(** [interface Item] *)
Record Item := mkItem {
  id : string;
  name : string
}.

Section Sort.

Context {A : Type}.

(** A comparator as [Array.prototype.sort] takes it: negative, zero or
    positive. *)
Variable compareFn : A -> A -> Z.

(** [array.sort(compareFn)] for a consistent comparator: the language fixes
    the result, the stable ascending arrangement.  It is computed here by
    inserting each element, from the last to the first, in front of the
    first element that is not smaller. *)
Fixpoint insert (x : A) (l : list A) : list A :=
  match l with
  | [] => [x]
  | y :: rest =>
      if (compareFn x y <=? 0)%Z then x :: y :: rest
      else y :: insert x rest
  end.

Fixpoint sort (l : list A) : list A :=
  match l with
  | [] => []
  | x :: rest => insert x (sort rest)
  end.

(** A comparator the language calls consistent: comparing the other way
    round flips the sign, and "not greater" is transitive. *)
Definition consistent : Prop :=
  (forall a b, Z.sgn (compareFn a b) = (- Z.sgn (compareFn b a))%Z) /\
  (forall a b c, (compareFn a b <= 0)%Z -> (compareFn b c <= 0)%Z ->
                 (compareFn a c <= 0)%Z).

End Sort.

Section WithCollation.

(** [String.prototype.localeCompare], which depends on the locale. *)
Variable localeCompare : string -> string -> Z.

(** [(a, b) => a.name.localeCompare(b.name)] *)
Definition byName (a b : Item) : Z := localeCompare (name a) (name b).

(** [useMemo((): Item[] => [...items].sort(...), [items])]: the value for
    the current [items]. *)
Definition sortedItems (items : list Item) : list Item :=
  sort byName items.

End WithCollation.

(** A collation to run the sort with: shorter names first. *)
Definition byLength (a b : string) : Z :=
  (Z.of_nat (String.length a) - Z.of_nat (String.length b))%Z.

End Hooks.

(** ** The order of the calls an [async] function makes *)

Module Scheduling.

(** The calls of [getLocation], with numbers for coordinates. *)
Abbreviation call := (Expo.call float).





End Scheduling.

(** * Theorems *)

(** ** The counter reducer *)

Lemma counterReducer_INCREMENT (s p : float) :
  Reducer.counterReducer s (Reducer.INCREMENT p) = (s + p)%float.
Proof. reflexivity. Qed.

Lemma counterReducer_DECREMENT (s p : float) :
  Reducer.counterReducer s (Reducer.DECREMENT p) = (s - p)%float.
Proof. reflexivity. Qed.

Lemma counterReducer_RESET (s : float) :
  Reducer.counterReducer s Reducer.RESET = 0%float.
Proof. reflexivity. Qed.

(** C1.  [counterReducer] is the four-way switch on the action's tag: for
    every state [s] (every number, the integers among them) and every
    action [a] it returns [s + a.payload] on ['INCREMENT'],
    [s - a.payload] on ['DECREMENT'], [0] on ['RESET'] and [s] itself for
    any other tag, [+] and [-] being those of the numbers; and it is a
    function of its two arguments: equal states and actions with the same
    tag and payload give the same result. *)
Theorem counterReducer_switch (s : float) (a : Reducer.Action) :
  (Reducer.type a = "INCREMENT" ->
     Reducer.counterReducer s a = (s + Reducer.payload a)%float) /\
  (Reducer.type a = "DECREMENT" ->
     Reducer.counterReducer s a = (s - Reducer.payload a)%float) /\
  (Reducer.type a = "RESET" -> Reducer.counterReducer s a = 0%float) /\
  (Reducer.type a <> "INCREMENT" -> Reducer.type a <> "DECREMENT" ->
     Reducer.type a <> "RESET" -> Reducer.counterReducer s a = s) /\
  (forall s' a', s' = s -> Reducer.type a' = Reducer.type a ->
     Reducer.payload a' = Reducer.payload a ->
     Reducer.counterReducer s' a' = Reducer.counterReducer s a).
Proof.
  unfold Reducer.counterReducer.
  repeat split.
  - intros ->. reflexivity.
  - intros ->. reflexivity.
  - intros ->. reflexivity.
  - intros Hi Hd Hr.
    apply String.eqb_neq in Hi, Hd, Hr.
    rewrite Hi, Hd, Hr. reflexivity.
  - intros s' a' -> -> ->. reflexivity.
Qed.

Example counterReducer_run :
  Reducer.dispatchAll
    [Reducer.INCREMENT 5; Reducer.DECREMENT 2; Reducer.mkAction "NOOP" 9;
     Reducer.RESET; Reducer.INCREMENT 7] = 7%float.
Proof. reflexivity. Qed.

(** The sums are those of the numbers, not of the integers: past [2^53]
    an increment by one is lost, and two runs of the same three
    increments can differ in the last digit. *)
Example counterReducer_past_two53 :
  Reducer.counterReducer Reducer.two53 (Reducer.INCREMENT 1) = Reducer.two53.
Proof. reflexivity. Qed.

Example counterReducer_order :
  Reducer.dispatchAll
    [Reducer.INCREMENT Reducer.two53; Reducer.INCREMENT 1;
     Reducer.DECREMENT Reducer.two53] <>
  Reducer.dispatchAll
    [Reducer.INCREMENT Reducer.two53; Reducer.DECREMENT Reducer.two53;
     Reducer.INCREMENT 1].
Proof.
  intros H. vm_compute in H.
  apply (f_equal Prim2SF) in H. vm_compute in H. discriminate H.
Qed.

(** ** Classes and [instanceof] *)

Lemma cls_eqb_eq (c d : Js.cls) : Js.cls_eqb c d = true <-> c = d.
Proof.
  revert d. induction c as [| | | |n b IH]; intros [| | | |n' b']; simpl;
    try (split; [discriminate | congruence]); try tauto.
  rewrite andb_true_iff, String.eqb_eq, IH. split.
  - intros [-> ->]. reflexivity.
  - intros [= -> ->]. auto.
Qed.

Lemma protoChain_unfold (c : Js.cls) :
  Js.protoChain c =
    c :: match Js.extends c with Some b => Js.protoChain b | None => [] end.
Proof. destruct c; reflexivity. Qed.

Lemma existsb_cls_In (C : Js.cls) (l : list Js.cls) :
  List.existsb (Js.cls_eqb C) l = true <-> In C l.
Proof.
  rewrite existsb_exists. split.
  - intros (d & Hd & Heq). apply cls_eqb_eq in Heq. subst. assumption.
  - intros HC. exists C. split; [assumption | apply cls_eqb_eq; reflexivity].
Qed.

Lemma subclass_protoChain (c C : Js.cls) :
  ErrorHandling.subclass c C <-> In C (Js.protoChain c).
Proof.
  split.
  - induction 1 as [c | c b d Hext _ IH].
    + rewrite protoChain_unfold. left. reflexivity.
    + rewrite protoChain_unfold, Hext. right. exact IH.
  - revert C. induction c as [| | | |n b IH]; intros C HC.
    + destruct HC as [<- | []]. constructor.
    + destruct HC as [<- | [<- | []]]; repeat (econstructor; simpl; eauto).
    + destruct HC as [<- | [<- | [<- | []]]];
        repeat (econstructor; simpl; eauto).
    + destruct HC as [<- | [<- | [<- | []]]];
        repeat (econstructor; simpl; eauto).
    + destruct HC as [<- | HC].
      * constructor.
      * eapply ErrorHandling.subclass_extends; [reflexivity | auto].
Qed.

Lemma chain_subclass (c C : Js.cls) :
  List.existsb (Js.cls_eqb C) (Js.protoChain c) = true <->
  ErrorHandling.subclass c C.
Proof. rewrite existsb_cls_In, subclass_protoChain. reflexivity. Qed.




Lemma subclass_trans (c d e : Js.cls) :
  ErrorHandling.subclass c d -> ErrorHandling.subclass d e ->
  ErrorHandling.subclass c e.
Proof.
  induction 1 as [c | c b d Hext _ IH]; intros Hde; [assumption |].
  eapply ErrorHandling.subclass_extends; eauto.
Qed.

Lemma ApiError_extends_Error : ErrorHandling.subclass Js.ApiError_ Js.Error_.
Proof. eapply ErrorHandling.subclass_extends; [reflexivity | constructor]. Qed.

Lemma ValidationError_extends_Error :
  ErrorHandling.subclass Js.ValidationError_ Js.Error_.
Proof. eapply ErrorHandling.subclass_extends; [reflexivity | constructor]. Qed.





(** ** The error dispatcher *)


Lemma get_getter (E : Js.engine) (c : Js.cls) (props : gmap string Js.slot)
    (p : string) (getter : Js.outcome Js.held) :
  props !! p = Some (Js.Accessor getter) ->
  Js.get E (Js.VObj c props) p = getter.
Proof. intros H. simpl. rewrite H. reflexivity. Qed.

(** The three branches, for an object whose guards have answered. *)
Lemma handleError_branches (E : Js.engine) (c : Js.cls)
    (props : gmap string Js.slot) :
  ErrorHandling.handleError E (Js.VObj c props) =
    if existsb (Js.cls_eqb Js.ApiError_) (Js.protoChain c) then
      status ← Js.get E (Js.VObj c props) "status";
      status ← Js.hole E status;
      message ← Js.get E (Js.VObj c props) "message";
      message ← Js.hole E message;
      mret ("API Error (" +:+ status +:+ "): " +:+ message)
    else if existsb (Js.cls_eqb Js.ValidationError_) (Js.protoChain c) then
      field ← Js.get E (Js.VObj c props) "field";
      field ← Js.hole E field;
      message ← Js.get E (Js.VObj c props) "message";
      message ← Js.hole E message;
      mret ("Validation Error in " +:+ field +:+ ": " +:+ message)
    else if existsb (Js.cls_eqb Js.Error_) (Js.protoChain c) then
      message ← Js.get E (Js.VObj c props) "message";
      message ← Js.hole E message;
      mret ("Error: " +:+ message)
    else mret "An unknown error occurred".
Proof.
  unfold ErrorHandling.handleError, ErrorHandling.isApiError,
    ErrorHandling.isValidationError, Js.instanceOf.
  destruct (existsb (Js.cls_eqb Js.ApiError_) (Js.protoChain c));
    [reflexivity |].
  destruct (existsb (Js.cls_eqb Js.ValidationError_) (Js.protoChain c));
    [reflexivity |].
  destruct (existsb (Js.cls_eqb Js.Error_) (Js.protoChain c)); reflexivity.
Qed.



(** The ways [handleError] throws: a hole that holds a [Symbol] or an
    object whose conversion throws, a getter that throws, a revoked
    proxy. *)
Lemma handleError_revoked (E : Js.engine) :
  ErrorHandling.handleError E Js.VRevoked =
    Js.Throw (Js.typeError E (Js.RevokedProxy "getPrototypeOf")).
Proof. reflexivity. Qed.

Lemma handleError_getter_throws (E : Js.engine) (x : Js.value) :
  ErrorHandling.handleError E
    (Js.VObj Js.Error_ {[ "message" := Js.Accessor (Js.Throw x) ]}) =
    Js.Throw x.
Proof. reflexivity. Qed.

Lemma handleError_conversion_throws (E : Js.engine) (x : Js.value) :
  ErrorHandling.handleError E
    (Js.VObj Js.Error_ {[ "message" := Js.Data (Js.HObject (Js.Throw x)) ]}) =
    Js.Throw x.
Proof. reflexivity. Qed.

(** An [Error] with no [message] of its own has the empty one of
    [Error.prototype]. *)
Example handleError_no_message (E : Js.engine) :
  ErrorHandling.handleError E (Js.VObj Js.Error_ ∅) = Js.Return "Error: ".
Proof. reflexivity. Qed.

Lemma handleError_new_Error (E : Js.engine) (message : string) :
  ErrorHandling.handleError E (Js.new_Error message) =
    Js.Return ("Error: " +:+ message).
Proof. reflexivity. Qed.

Example handleError_404 :
  ErrorHandling.handleError Js.sampleEngine
    (ErrorHandling.new_ApiError "Not Found" 404) =
    Js.Return "API Error (404): Not Found".
Proof. vm_compute. reflexivity. Qed.

Example handleError_subclass :
  ErrorHandling.handleError Js.sampleEngine
    (Js.VObj (Js.Derived "RateLimitError" Js.ApiError_)
       (<["status" := Js.Data (Js.HPrim (Js.PNum 429))]>
          {[ "message" := Js.Data (Js.HPrim (Js.PStr "slow down")) ]})) =
    Js.Return "API Error (429): slow down".
Proof. vm_compute. reflexivity. Qed.

Example handleError_string (E : Js.engine) :
  ErrorHandling.handleError E (Js.VPrim (Js.PStr "boom")) =
    Js.Return "An unknown error occurred".
Proof. reflexivity. Qed.

Example handleError_plain_object (E : Js.engine) :
  ErrorHandling.handleError E
    (Js.VObj Js.Object_ {[ "message" := Js.Data (Js.HPrim (Js.PStr "x")) ]}) =
    Js.Return "An unknown error occurred".
Proof. reflexivity. Qed.

(** ** The theme context *)

Lemma useContext_skip (below above : list ThemeContext.ancestor) :
  Forall (fun a => ~ ThemeContext.isProvider a) below ->
  ThemeContext.useContext (below ++ above)%list = ThemeContext.useContext above.
Proof.
  induction 1 as [| a below Ha _ IH]; [reflexivity |].
  destruct a as [state | name]; simpl in *; [tauto | exact IH].
Qed.

Lemma useContext_undefined (ancestors : list ThemeContext.ancestor) :
  ThemeContext.useContext ancestors = None <->
  Forall (fun a => ~ ThemeContext.isProvider a) ancestors.
Proof.
  induction ancestors as [| a above IH]; simpl.
  - split; [constructor | reflexivity].
  - destruct a as [state | name].
    + split; [discriminate |].
      inversion 1 as [| ? ? Ha]. simpl in Ha. tauto.
    + rewrite IH. split.
      * intros H. constructor; [simpl; tauto | exact H].
      * inversion 1. assumption.
Qed.

(** C8.  [useTheme] returns the value that the nearest enclosing
    [ThemeProvider] supplies: with only other components between the
    consumer and a provider in state [state], it returns that provider's
    value.  It throws [Error('useTheme must be used within a
    ThemeProvider')] exactly when no provider encloses the call, which is
    exactly when the consumed context value is [undefined]; and what it
    returns is the consumed value, which is then defined. *)
Theorem useTheme_nearest_provider (ancestors : list ThemeContext.ancestor) :
  (forall below state above,
     ancestors = (below ++ ThemeContext.ThemeProvider state :: above)%list ->
     Forall (fun a => ~ ThemeContext.isProvider a) below ->
     ThemeContext.useTheme ancestors =
       Js.Return (ThemeContext.value state)) /\
  (ThemeContext.useTheme ancestors =
     Js.Throw (Js.new_Error "useTheme must be used within a ThemeProvider") <->
   Forall (fun a => ~ ThemeContext.isProvider a) ancestors) /\
  (ThemeContext.useContext ancestors = None <->
   Forall (fun a => ~ ThemeContext.isProvider a) ancestors) /\
  (forall v, ThemeContext.useTheme ancestors = Js.Return v ->
     ThemeContext.useContext ancestors = Some v).
Proof.
  split; [| split; [| split]].
  - intros below state above -> Hbelow.
    unfold ThemeContext.useTheme. rewrite useContext_skip by assumption.
    reflexivity.
  - rewrite <- useContext_undefined. unfold ThemeContext.useTheme.
    destruct (ThemeContext.useContext ancestors); split;
      try discriminate; reflexivity.
  - apply useContext_undefined.
  - unfold ThemeContext.useTheme. intros v.
    destruct (ThemeContext.useContext ancestors); [| discriminate].
    intros [= ->]. reflexivity.
Qed.

Example useTheme_inside :
  ThemeContext.useTheme
    [ThemeContext.Component "Screen"; ThemeContext.ThemeProvider ThemeContext.dark;
     ThemeContext.ThemeProvider ThemeContext.light; ThemeContext.Component "App"] =
    Js.Return (ThemeContext.mkContext ThemeContext.dark
                 (ThemeContext.defaultColors ThemeContext.dark)).
Proof. reflexivity. Qed.

Example useTheme_outside :
  ThemeContext.useTheme [ThemeContext.Component "Screen"] =
    Js.Throw (Js.new_Error "useTheme must be used within a ThemeProvider").
Proof. reflexivity. Qed.


(** ** Invariants of the snippets' state *)

Lemma paired_value (t : ThemeContext.Theme) :
  ThemeContext.paired (ThemeContext.value t).
Proof. reflexivity. Qed.

Lemma paired_preserved : ThemeContext.preserved ThemeContext.paired.
Proof.
  split.
  - apply paired_value.
  - intros v t _. apply paired_value.
Qed.

(** C3, as the spec has it, fails: the theme provider's context value has
    an invariant that is not trivial.  The pairing of the theme with
    [defaultColors[theme]] holds of the first value, is kept by every
    [setTheme], and is false of the value that pairs ['light'] with the
    dark colours. *)
Lemma theme_pairing_is_invariant : ~ ThemeContext.no_invariant.
Proof.
  intros H.
  specialize (H ThemeContext.paired paired_preserved
    (ThemeContext.mkContext ThemeContext.light
       (ThemeContext.defaultColors ThemeContext.dark))).
  discriminate H.
Qed.

(** C3, amended.  The theme snippet has an invariant across its
    operations: the pairing of the theme with [defaultColors[theme]] holds
    of the first context value [ThemeProvider] supplies and is kept by
    every [setTheme], so it holds of the value supplied after any run of
    [setTheme] calls. *)
Theorem snippet_invariants :
  ThemeContext.preserved ThemeContext.paired /\
  (forall themes : list ThemeContext.Theme,
     ThemeContext.paired
       (fold_left ThemeContext.afterSetTheme themes
          (ThemeContext.value ThemeContext.initialTheme))).
Proof.
  split; [apply paired_preserved |].
  intros themes.
  generalize (paired_value ThemeContext.initialTheme).
  generalize (ThemeContext.value ThemeContext.initialTheme).
  induction themes as [| t themes IH]; intros v Hv; simpl.
  - exact Hv.
  - apply IH. apply paired_value.
Qed.

(** ** The [Media] guards *)

Lemma isPhoto_isVideo (m : TypeGuards.Media) :
  TypeGuards.isVideo m = negb (TypeGuards.isPhoto m).
Proof. destruct m; reflexivity. Qed.

(** C6.  For every [m] of the union [Media], [m.type] is ['photo'] or
    ['video'], exactly one of [isPhoto(m)] and [isVideo(m)] is [true],
    [MediaItem] returns from the photo branch or from the video branch,
    and never the [null] of the exhaustiveness branch. *)
Theorem MediaItem_exhaustive (m : TypeGuards.Media) :
  (TypeGuards.type m = "photo" \/ TypeGuards.type m = "video") /\
  xorb (TypeGuards.isPhoto m) (TypeGuards.isVideo m) = true /\
  ((TypeGuards.isPhoto m = true /\
    TypeGuards.MediaItem m = Some (TypeGuards.photoElement m)) \/
   (TypeGuards.isPhoto m = false /\ TypeGuards.isVideo m = true /\
    TypeGuards.MediaItem m = Some (TypeGuards.videoElement m))) /\
  TypeGuards.MediaItem m <> None.
Proof.
  split; [| split; [| split]].
  - destruct m; [left | right]; reflexivity.
  - rewrite isPhoto_isVideo. destruct (TypeGuards.isPhoto m); reflexivity.
  - destruct m; [left | right]; repeat split.
  - destruct m; discriminate.
Qed.

Example MediaItem_video :
  TypeGuards.MediaItem (TypeGuards.VideoMedia "v.mp4" 12 "t.png") =
    Some (TypeGuards.View
            [TypeGuards.Image (Js.PStr "t.png") None;
             TypeGuards.Text [Js.PStr "Duration: "; Js.PNum 12; Js.PStr "s"]]).
Proof. reflexivity. Qed.


(** ** [fetchUser] and [loadUserData] *)

(** What [fetchUser] does, case by case: it returns the parsed body of an
    [ok] response, and logs and rethrows everything else. *)
Lemma fetchUser_cases (E : Js.engine) (fetch : string -> Js.outcome Api.Response)
    (userId : string) (tr : list Api.call) :
  Api.fetchUser E fetch userId tr =
    match fetch ("https://api.example.com/users/" +:+ userId) with
    | Js.Throw e =>
        (Js.Throw e, (tr ++ [Api.console_error "Error fetching user:" e])%list)
    | Js.Return response =>
        if Api.ok response then
          match Api.json response with
          | Js.Return data => (Js.Return data, tr)
          | Js.Throw e =>
              (Js.Throw e,
               (tr ++ [Api.console_error "Error fetching user:" e])%list)
          end
        else
          let e := Js.new_Error
                     ("HTTP error: " +:+ Js.numberToString E (Api.status response)) in
          (Js.Throw e,
           (tr ++ [Api.console_error "Error fetching user:" e])%list)
    end.
Proof.
  unfold Api.fetchUser, Api.tryCatch, mbind, Api.M_bind, Api.bind, Api.await.
  destruct (fetch _) as [response | e]; [| reflexivity].
  destruct (Api.ok response); simpl; [| reflexivity].
  destruct (Api.json response); reflexivity.
Qed.

Lemma fetchUser_http_error (E : Js.engine) (fetch : string -> Js.outcome Api.Response)
    (userId : string) (tr : list Api.call) (response : Api.Response) :
  fetch ("https://api.example.com/users/" +:+ userId) = Js.Return response ->
  Api.ok response = false ->
  Api.fetchUser E fetch userId tr =
    (Js.Throw (Js.new_Error ("HTTP error: " +:+ Js.numberToString E (Api.status response))),
     (tr ++ [Api.console_error "Error fetching user:"
               (Js.new_Error ("HTTP error: " +:+ Js.numberToString E (Api.status response)))])%list).
Proof. intros Hf Hok. rewrite (fetchUser_cases E), Hf, Hok. reflexivity. Qed.

(** C4, as the spec has it, fails: with a server that answers 500,
    [fetchUser] throws [Error('HTTP error: 500')] and [loadUserData]
    catches it and calls [setError('HTTP error: 500')]. *)
Lemma fetchUser_error_reaches_loadUserData : ~ Api.no_error_reaches_caller Js.sampleEngine.
Proof.
  intros H.
  specialize (H
    (Api.respondsWith (Api.mkResponse false 500 (Js.Throw (Js.VPrim Js.PUndefined))))
    []
    (Js.new_Error "HTTP error: 500")
    [Api.console_error "Error fetching user:" (Js.new_Error "HTTP error: 500")]
    eq_refl).
  vm_compute in H. discriminate H.
Qed.

Lemma loadUserData_cases (E : Js.engine) (fetch : string -> Js.outcome Api.Response)
    (tr : list Api.call) :
  Api.loadUserData E fetch tr =
    match Api.fetchUser E fetch "123" tr with
    | (Js.Return user, tr') =>
        (Js.Return tt, (tr' ++ [Api.setUser user; Api.setLoading false])%list)
    | (Js.Throw e, tr') =>
        match Js.get E e "message" with
        | Js.Return message =>
            (Js.Return tt,
             (tr' ++ [Api.setError message; Api.setLoading false])%list)
        | Js.Throw e' => (Js.Throw e', (tr' ++ [Api.setLoading false])%list)
        end
    end.
Proof.
  unfold Api.loadUserData, Api.tryFinally, Api.tryCatch at 1, mbind,
    Api.M_bind, Api.bind.
  destruct (Api.fetchUser E fetch "123" tr) as [[user | e] tr'].
  - unfold Api.emit. rewrite <- app_assoc. reflexivity.
  - unfold Api.await, Api.emit.
    destruct (Js.get E e "message") as [message | e']; [| reflexivity].
    rewrite <- app_assoc. reflexivity.
Qed.

(** C4, amended.  An error raised inside [fetchUser] propagates to its
    caller: whenever [fetchUser('123')] throws or rethrows [e],
    [loadUserData] catches [e], passes [e.message] to [setError] and then
    calls [setLoading(false)], and returns normally; only when reading
    [e.message] itself throws (for [e] [undefined], [null] or a revoked
    proxy, or when [message] is a getter that throws) does that error
    leave [loadUserData], after [setLoading(false)]. *)
Theorem loadUserData_catches (E : Js.engine) (fetch : string -> Js.outcome Api.Response)
    (tr tr' : list Api.call) (e : Js.value) :
  Api.fetchUser E fetch "123" tr = (Js.Throw e, tr') ->
  Api.loadUserData E fetch tr =
    match Js.get E e "message" with
    | Js.Return message =>
        (Js.Return tt, (tr' ++ [Api.setError message; Api.setLoading false])%list)
    | Js.Throw e' => (Js.Throw e', (tr' ++ [Api.setLoading false])%list)
    end.
Proof.
  intros Hfetch. rewrite loadUserData_cases, Hfetch. reflexivity.
Qed.

Lemma loadUserData_catches_witness :
  Api.fetchUser Js.sampleEngine
    (Api.respondsWith (Api.mkResponse false 500 (Js.Throw (Js.VPrim Js.PUndefined))))
    "123" [] =
  (Js.Throw (Js.new_Error "HTTP error: 500"),
   [Api.console_error "Error fetching user:" (Js.new_Error "HTTP error: 500")]) /\
  Api.loadUserData Js.sampleEngine
    (Api.respondsWith (Api.mkResponse false 500 (Js.Throw (Js.VPrim Js.PUndefined))))
    [] =
  (Js.Return tt,
   [Api.console_error "Error fetching user:" (Js.new_Error "HTTP error: 500");
    Api.setError (Js.HPrim (Js.PStr "HTTP error: 500"));
    Api.setLoading false]).
Proof.
  split; [reflexivity |].
  exact (loadUserData_catches Js.sampleEngine
    (Api.respondsWith (Api.mkResponse false 500 (Js.Throw (Js.VPrim Js.PUndefined))))
    []
    [Api.console_error "Error fetching user:" (Js.new_Error "HTTP error: 500")]
    (Js.new_Error "HTTP error: 500")
    eq_refl).
Defined.

Lemma get_new_Error (E : Js.engine) (message : string) :
  Js.get E (Js.new_Error message) "message" =
    Js.Return (Js.HPrim (Js.PStr message)).
Proof. reflexivity. Qed.

(** The case of the snippet's own [throw]: a response that is not [ok]. *)
Lemma loadUserData_http_error (E : Js.engine) (fetch : string -> Js.outcome Api.Response)
    (tr : list Api.call) (response : Api.Response) :
  fetch "https://api.example.com/users/123" = Js.Return response ->
  Api.ok response = false ->
  Api.loadUserData E fetch tr =
    (Js.Return tt,
     (tr ++ [Api.console_error "Error fetching user:"
               (Js.new_Error ("HTTP error: " +:+ Js.numberToString E (Api.status response)));
             Api.setError
               (Js.HPrim (Js.PStr ("HTTP error: " +:+ Js.numberToString E (Api.status response))));
             Api.setLoading false])%list).
Proof.
  intros Hf Hok.
  rewrite loadUserData_cases.
  rewrite (fetchUser_http_error E fetch "123" tr response Hf Hok).
  rewrite get_new_Error, <- app_assoc. reflexivity.
Qed.

Lemma loadUserData_success (E : Js.engine) (fetch : string -> Js.outcome Api.Response)
    (tr : list Api.call) (response : Api.Response) (data : Api.User) :
  fetch "https://api.example.com/users/123" = Js.Return response ->
  Api.ok response = true ->
  Api.json response = Js.Return data ->
  Api.loadUserData E fetch tr =
    (Js.Return tt, (tr ++ [Api.setUser data; Api.setLoading false])%list).
Proof.
  intros Hf Hok Hjson.
  rewrite loadUserData_cases, fetchUser_cases.
  change ("https://api.example.com/users/" +:+ "123")
    with "https://api.example.com/users/123".
  rewrite Hf, Hok, Hjson. reflexivity.
Qed.


(** ** [updateField] *)

Lemma get_spread (f : Form.LoginForm) (k : Form.key) (v : Form.fieldType k) :
  Form.get k (Form.spread f k v) = v.
Proof. destruct k; reflexivity. Qed.

Lemma get_spread_other (f : Form.LoginForm) (k k' : Form.key)
    (v : Form.fieldType k) :
  k' <> k -> Form.get k' (Form.spread f k v) = Form.get k' f.
Proof. destruct k, k'; intros Hne; try reflexivity; contradiction. Qed.

Lemma truthy_read_present (errs : gmap Form.key (option string)) (k : Form.key) :
  Js.truthy (Form.read errs k) = true ->
  exists message, errs !! k = Some (Some message) /\ message <> "".
Proof.
  unfold Form.read. destruct (errs !! k) as [[message |] |]; simpl;
    try discriminate.
  intros H. exists message. split; [reflexivity |].
  intros ->. discriminate H.
Qed.

(** The two cells after [updateField(k, v)], when the handler is the one of
    the current render. *)
Lemma updateField_state (f : Form.LoginForm)
    (errs : gmap Form.key (option string)) (k : Form.key)
    (v : Form.fieldType k) :
  Form.updateField errs k v (Form.mkState f errs) =
    Form.mkState (Form.spread f k v)
      (if Js.truthy (Form.read errs k) then <[k := None]> errs else errs).
Proof.
  unfold Form.updateField. simpl.
  destruct (Js.truthy (Form.read errs k)); reflexivity.
Qed.

(** The same for a handler kept from an earlier render, which saw the error
    map [seen]: the test reads [seen], the update works on the state of
    the moment. *)
Lemma updateField_any_render (seen : gmap Form.key (option string))
    (k : Form.key) (v : Form.fieldType k) (st : Form.State) :
  Form.updateField seen k v st =
    Form.mkState (Form.spread (Form.form st) k v)
      (if Js.truthy (Form.read seen k) then <[k := None]> (Form.errors st)
       else Form.errors st).
Proof.
  unfold Form.updateField. destruct st as [f errs]. simpl.
  destruct (Js.truthy (Form.read seen k)); reflexivity.
Qed.

(** C7.  For every form [f], error map [errs], key [k] and value [v] of the
    type of field [k]: after [updateField(k, v)] field [k] of the form
    holds [v] and the other fields are as in [f]; the error map is either
    untouched or is [errs] with the entry for [k] set to [undefined], the
    latter only when [errs] had an entry for [k]; and the entries of every
    other key are as before. *)
Theorem updateField_frame (f : Form.LoginForm)
    (errs : gmap Form.key (option string)) (k : Form.key)
    (v : Form.fieldType k) :
  Form.get k (Form.form (Form.updateField errs k v (Form.mkState f errs))) = v /\
  (forall k', k' <> k ->
     Form.get k' (Form.form (Form.updateField errs k v (Form.mkState f errs))) =
       Form.get k' f) /\
  (Form.errors (Form.updateField errs k v (Form.mkState f errs)) = errs \/
   (Form.errors (Form.updateField errs k v (Form.mkState f errs)) =
      <[k := None]> errs /\ is_Some (errs !! k))) /\
  (forall k', k' <> k ->
     Form.errors (Form.updateField errs k v (Form.mkState f errs)) !! k' =
       errs !! k').
Proof.
  rewrite updateField_state. simpl.
  split; [apply get_spread | split; [| split]].
  - intros k' Hne. apply get_spread_other, Hne.
  - destruct (Js.truthy (Form.read errs k)) eqn:Htruthy; [right | left; reflexivity].
    split; [reflexivity |].
    apply truthy_read_present in Htruthy as (message & Hk & _).
    rewrite Hk. eexists. reflexivity.
  - intros k' Hne.
    destruct (Js.truthy (Form.read errs k)); [| reflexivity].
    apply lookup_insert_ne. congruence.
Qed.

Example updateField_clears :
  Form.updateField {[ Form.key_email := Some "required" ]} Form.key_email
    "a@b.c"
    (Form.mkState (Form.mkLoginForm "" "pw" true)
       {[ Form.key_email := Some "required" ]}) =
  Form.mkState (Form.mkLoginForm "a@b.c" "pw" true)
    {[ Form.key_email := None ]}.
Proof.
  rewrite updateField_state. simpl. rewrite insert_singleton_eq. reflexivity.
Qed.

(** An entry that holds the empty message is falsy: it stays as it is. *)
Example updateField_empty_message :
  Form.updateField {[ Form.key_email := Some "" ]} Form.key_email "a@b.c"
    (Form.mkState (Form.mkLoginForm "" "pw" true)
       {[ Form.key_email := Some "" ]}) =
  Form.mkState (Form.mkLoginForm "a@b.c" "pw" true)
    {[ Form.key_email := Some "" ]}.
Proof. rewrite updateField_state. reflexivity. Qed.


(** ** References between code blocks *)

Lemma mem_In (n : string) (l : list string) :
  Snippets.mem n l = true <-> In n l.
Proof.
  unfold Snippets.mem. rewrite existsb_exists. split.
  - intros (x & Hx & Heq). apply String.eqb_eq in Heq. subst. assumption.
  - intros Hn. exists n. split; [assumption | apply String.eqb_refl].
Qed.

Lemma refers_free (s s' : Snippets.Snippet) (n : string) :
  Snippets.refers s s' n = true ->
  In n (Snippets.free s) /\ In n (Snippets.declares s').
Proof.
  unfold Snippets.refers. rewrite !andb_true_iff, !mem_In. tauto.
Qed.

(** [references] lists every reference between two blocks of the list. *)
Lemma references_complete (l : list Snippets.Snippet)
    (s s' : Snippets.Snippet) (n : string) :
  In s l -> In s' l -> Snippets.refers s s' n = true ->
  In (s, n, s') (Snippets.references l).
Proof.
  intros Hs Hs' Hrefers. unfold Snippets.references.
  apply in_flat_map. exists s. split; [assumption |].
  apply in_flat_map. exists s'. split; [assumption |].
  apply in_map_iff. exists n. split; [reflexivity |].
  apply filter_In. split; [| assumption].
  apply (refers_free s s' n Hrefers).
Qed.

Lemma references_snippets :
  Snippets.references Snippets.snippets =
    [ (Snippets.apiAndAsync, "setUser", Snippets.handlingState);
      (Snippets.customTypes, "User", Snippets.apiAndAsync) ].
Proof. vm_compute. reflexivity. Qed.

Ltac in_snippets :=
  unfold Snippets.snippets;
  repeat (first [left; reflexivity | right]).

(** C9, as the spec has it, fails: the usage line of the custom-types
    block, [createInitialState<User>()], names the type [User], which that
    block does not declare and the API block does. *)
Lemma createInitialState_usage_needs_User : ~ Snippets.standalone.
Proof.
  intros H.
  specialize (H Snippets.customTypes Snippets.apiAndAsync "User").
  assert (H1 : In Snippets.customTypes Snippets.snippets) by in_snippets.
  assert (H2 : In Snippets.apiAndAsync Snippets.snippets) by in_snippets.
  specialize (H H1 H2). vm_compute in H. discriminate H.
Qed.

(** C9, amended.  Within each document the code blocks are standalone but
    for two references, both in Guide.tsx: [loadUserData] in the API block
    calls [setUser], which only the state-handling block declares, and the
    usage line of [createInitialState] in the custom-types block names the
    type [User], which the API block declares.  No other block uses a name
    that another block of its document declares. *)
Theorem references_between_snippets (s s' : Snippets.Snippet) (n : string) :
  In s Snippets.snippets -> In s' Snippets.snippets ->
  Snippets.refers s s' n = true ->
  (s, n, s') = (Snippets.apiAndAsync, "setUser", Snippets.handlingState) \/
  (s, n, s') = (Snippets.customTypes, "User", Snippets.apiAndAsync).
Proof.
  intros Hs Hs' Hrefers.
  pose proof (references_complete _ s s' n Hs Hs' Hrefers) as Hin.
  rewrite references_snippets in Hin.
  destruct Hin as [Heq | [Heq | []]]; [left | right]; symmetry; exact Heq.
Qed.

Lemma references_between_snippets_witness :
  In Snippets.apiAndAsync Snippets.snippets /\
  In Snippets.handlingState Snippets.snippets /\
  Snippets.refers Snippets.apiAndAsync Snippets.handlingState "setUser" = true /\
  ((Snippets.apiAndAsync, "setUser", Snippets.handlingState) =
     (Snippets.apiAndAsync, "setUser", Snippets.handlingState) \/
   (Snippets.apiAndAsync, "setUser", Snippets.handlingState) =
     (Snippets.customTypes, "User", Snippets.apiAndAsync)).
Proof.
  assert (H1 : In Snippets.apiAndAsync Snippets.snippets) by in_snippets.
  assert (H2 : In Snippets.handlingState Snippets.snippets) by in_snippets.
  refine (conj H1 (conj H2 (conj eq_refl _))).
  exact (references_between_snippets Snippets.apiAndAsync
           Snippets.handlingState "setUser" H1 H2 eq_refl).
Defined.


(** * Further properties of the snippets *)

(** ** The counter: runs of dispatches *)

(** X1.  A ['RESET'] forgets everything dispatched before it: the state
    after a run that contains one is the state after the actions that
    follow it, whatever came before and whatever the state was. *)
Theorem RESET_forgets (before after : list Reducer.Action)
    (reset : Reducer.Action) (s : float) :
  Reducer.type reset = "RESET" ->
  fold_left Reducer.counterReducer (before ++ reset :: after)%list s =
    Reducer.dispatchAll after.
Proof.
  intros Hreset. rewrite fold_left_app. simpl.
  unfold Reducer.counterReducer at 2. rewrite Hreset. reflexivity.
Qed.

Lemma RESET_forgets_witness :
  fold_left Reducer.counterReducer
    ([Reducer.INCREMENT 5; Reducer.DECREMENT 2] ++
       Reducer.RESET :: [Reducer.INCREMENT 7])%list 40%float =
    Reducer.dispatchAll [Reducer.INCREMENT 7].
Proof.
  exact (RESET_forgets [Reducer.INCREMENT 5; Reducer.DECREMENT 2]
           [Reducer.INCREMENT 7] Reducer.RESET 40%float eq_refl).
Defined.

(** ** The error classes: what the guards and the dispatcher tell apart *)



Lemma chain_up (c C : Js.cls) :
  ErrorHandling.subclass C Js.Error_ ->
  existsb (Js.cls_eqb C) (Js.protoChain c) = true ->
  existsb (Js.cls_eqb Js.Error_) (Js.protoChain c) = true.
Proof.
  intros Hsub HC. apply chain_subclass. apply chain_subclass in HC.
  eapply subclass_trans; eassumption.
Qed.

Ltac settle H :=
  unfold mbind, Js.result_bind, mret, Js.result_ret in H;
  repeat match type of H with
         | context [match ?x with Js.Return _ => _ | Js.Throw _ => _ end] =>
             destruct x
         end;
  discriminate H.

(** X5.  The message tells whether the value was an error: [handleError]
    answers ['An unknown error occurred'] for the values that are no
    instance of [Error], and for no other value, whatever the message, the
    status or the field of the error. *)
Theorem handleError_unknown_iff (E : Js.engine) (e : Js.value) :
  ErrorHandling.handleError E e = Js.Return "An unknown error occurred" <->
  Js.instanceOf E e Js.Error_ = Js.Return false.
Proof.
  destruct e as [p | c props |].
  - split; reflexivity.
  - rewrite handleError_branches. unfold Js.instanceOf.
    pose proof (chain_up c _ ApiError_extends_Error) as HA.
    pose proof (chain_up c _ ValidationError_extends_Error) as HV.
    destruct (existsb (Js.cls_eqb Js.ApiError_) (Js.protoChain c));
      [rewrite (HA eq_refl);
       split; intros H; [exfalso; settle H | discriminate H] |].
    destruct (existsb (Js.cls_eqb Js.ValidationError_) (Js.protoChain c));
      [rewrite (HV eq_refl);
       split; intros H; [exfalso; settle H | discriminate H] |].
    destruct (existsb (Js.cls_eqb Js.Error_) (Js.protoChain c)).
    + split; intros H; [exfalso; settle H | discriminate H].
    + split; reflexivity.
  - split; discriminate.
Qed.

(** X6.  What is built by a constructor is recognised: an object made by
    [new ApiError(message, status)] passes [isApiError] only and is
    reported with its status, as the engine prints numbers, and its
    message; one made by [new ValidationError(message, field)] passes
    [isValidationError] only and is reported with its field and
    message. *)
Theorem constructed_errors_recognised (E : Js.engine)
    (message field : string) (status : float) :
  ErrorHandling.isApiError E (ErrorHandling.new_ApiError message status) =
    Js.Return true /\
  ErrorHandling.isValidationError E
    (ErrorHandling.new_ApiError message status) = Js.Return false /\
  ErrorHandling.handleError E (ErrorHandling.new_ApiError message status) =
    Js.Return ("API Error (" +:+ Js.numberToString E status +:+ "): "
                 +:+ message) /\
  ErrorHandling.isValidationError E
    (ErrorHandling.new_ValidationError message field) = Js.Return true /\
  ErrorHandling.isApiError E
    (ErrorHandling.new_ValidationError message field) = Js.Return false /\
  ErrorHandling.handleError E (ErrorHandling.new_ValidationError message field) =
    Js.Return ("Validation Error in " +:+ field +:+ ": " +:+ message).
Proof.
  repeat split.
Qed.

(** ** The theme context: what a consumer sees *)

Lemma useContext_value (ancestors : list ThemeContext.ancestor)
    (v : ThemeContext.ThemeContextType) :
  ThemeContext.useContext ancestors = Some v ->
  exists state, v = ThemeContext.value state.
Proof.
  induction ancestors as [| a above IH]; simpl; [discriminate |].
  destruct a as [state | name]; [| exact IH].
  intros [= <-]. exists state. reflexivity.
Qed.

(** X7.  Whatever the component tree, the value [useTheme] returns pairs
    its theme with [defaultColors[theme]]: a consumer never sees colours
    of another theme than the one it is told. *)
Theorem useTheme_paired (ancestors : list ThemeContext.ancestor)
    (v : ThemeContext.ThemeContextType) :
  ThemeContext.useTheme ancestors = Js.Return v ->
  ThemeContext.colors v = ThemeContext.defaultColors (ThemeContext.theme v).
Proof.
  unfold ThemeContext.useTheme.
  destruct (ThemeContext.useContext ancestors) as [context |] eqn:Hctx;
    [| discriminate].
  intros [= <-].
  destruct (useContext_value _ _ Hctx) as [state ->]. reflexivity.
Qed.

Lemma useTheme_paired_witness :
  ThemeContext.colors (ThemeContext.value ThemeContext.dark) =
    ThemeContext.defaultColors
      (ThemeContext.theme (ThemeContext.value ThemeContext.dark)).
Proof.
  exact (useTheme_paired
           [ThemeContext.Component "Screen";
            ThemeContext.ThemeProvider ThemeContext.dark]
           (ThemeContext.value ThemeContext.dark) eq_refl).
Defined.

(** X8.  The nearest provider shadows everything outside it: what
    [useTheme] gives below a provider does not depend on the components
    and providers above that provider. *)
Theorem nearest_provider_shadows (below above above' : list ThemeContext.ancestor)
    (state : ThemeContext.Theme) :
  ThemeContext.useTheme
    (below ++ ThemeContext.ThemeProvider state :: above)%list =
  ThemeContext.useTheme
    (below ++ ThemeContext.ThemeProvider state :: above')%list.
Proof.
  unfold ThemeContext.useTheme.
  induction below as [| a below IH]; simpl; [reflexivity |].
  destruct a as [inner | name]; [reflexivity | exact IH].
Qed.


(** ** [fetchUser] and [loadUserData]: outcomes and calls *)

(** X9.  [fetchUser] returns a user in one case only: the request
    settled with a response, the response was [ok], and its body parsed to
    that user; and then it logged nothing. *)
Theorem fetchUser_returns_iff (E : Js.engine) (fetch : string -> Js.outcome Api.Response)
    (userId : string) (tr tr' : list Api.call) (user : Api.User) :
  Api.fetchUser E fetch userId tr = (Js.Return user, tr') <->
  (exists response,
     fetch ("https://api.example.com/users/" +:+ userId) = Js.Return response /\
     Api.ok response = true /\
     Api.json response = Js.Return user) /\ tr' = tr.
Proof.
  rewrite fetchUser_cases. split.
  - destruct (fetch _) as [response | e]; [| discriminate].
    destruct (Api.ok response) eqn:Hok; [| discriminate].
    destruct (Api.json response) as [data | e] eqn:Hjson; [| discriminate].
    intros [= -> ->]. split; [| reflexivity].
    exists response. auto.
  - intros [(response & -> & -> & ->) ->]. reflexivity.
Qed.

(** X10.  [fetchUser] logs what it throws and nothing else: when it
    returns, the trace of calls is as it was; when it throws [e], the one
    call it added is [console.error('Error fetching user:', e)], with the
    very error it throws. *)
Theorem fetchUser_logs_what_it_throws
    (E : Js.engine) (fetch : string -> Js.outcome Api.Response) (userId : string)
    (tr : list Api.call) :
  match Api.fetchUser E fetch userId tr with
  | (Js.Return _, tr') => tr' = tr
  | (Js.Throw e, tr') =>
      tr' = (tr ++ [Api.console_error "Error fetching user:" e])%list
  end.
Proof.
  rewrite fetchUser_cases.
  destruct (fetch _) as [response | e]; [| reflexivity].
  destruct (Api.ok response); [| reflexivity].
  destruct (Api.json response); reflexivity.
Qed.

(** X11.  [fetchUser] makes one request, for the URL of the user: two
    [fetch]es that settle that URL alike give the same run, however they
    differ on other URLs. *)
Theorem fetchUser_one_request (E : Js.engine) (fetch fetch' : string -> Js.outcome Api.Response)
    (userId : string) (tr : list Api.call) :
  fetch ("https://api.example.com/users/" +:+ userId) =
    fetch' ("https://api.example.com/users/" +:+ userId) ->
  Api.fetchUser E fetch userId tr = Api.fetchUser E fetch' userId tr.
Proof. intros Heq. rewrite !fetchUser_cases, Heq. reflexivity. Qed.

Lemma fetchUser_one_request_witness :
  Api.fetchUser Js.sampleEngine
    (fun url => if String.eqb url "https://api.example.com/users/7"
                then Js.Return (Api.mkResponse false 404 (Js.Throw (Js.VPrim Js.PNull)))
                else Js.Throw (Js.VPrim Js.PUndefined))
    "7" [] =
  Api.fetchUser Js.sampleEngine
    (Api.respondsWith (Api.mkResponse false 404 (Js.Throw (Js.VPrim Js.PNull))))
    "7" [].
Proof.
  exact (fetchUser_one_request Js.sampleEngine
    (fun url => if String.eqb url "https://api.example.com/users/7"
                then Js.Return (Api.mkResponse false 404 (Js.Throw (Js.VPrim Js.PNull)))
                else Js.Throw (Js.VPrim Js.PUndefined))
    (Api.respondsWith (Api.mkResponse false 404 (Js.Throw (Js.VPrim Js.PNull))))
    "7" [] eq_refl).
Defined.

Lemma fetchUser_trace (E : Js.engine) (fetch : string -> Js.outcome Api.Response)
    (userId : string) (tr : list Api.call) :
  exists logged,
    snd (Api.fetchUser E fetch userId tr) = (tr ++ logged)%list /\
    (forall c, In c logged -> exists label e, c = Api.console_error label e).
Proof.
  assert (Hnone : exists logged,
            tr = (tr ++ logged)%list /\
            (forall c, In c logged -> exists label e, c = Api.console_error label e)).
  { exists []. split; [rewrite app_nil_r; reflexivity | intros c []]. }
  assert (Hone : forall e, exists logged,
            (tr ++ [Api.console_error "Error fetching user:" e])%list =
              (tr ++ logged)%list /\
            (forall c, In c logged -> exists label e, c = Api.console_error label e)).
  { intros e. eexists. split; [reflexivity |]. intros c [<- | []]. eauto. }
  rewrite fetchUser_cases.
  destruct (fetch _) as [response | e]; [| apply Hone].
  destruct (Api.ok response); [| apply Hone].
  destruct (Api.json response); [apply Hnone | apply Hone].
Qed.

(** X12.  The [finally] of [loadUserData] runs on every path:
    [setLoading(false)] is the last call of the run and the only call of
    [setLoading] in it, whether [fetchUser] returns or throws and whether
    the handler of the [catch] itself throws. *)
Theorem loadUserData_always_stops_loading
    (E : Js.engine) (fetch : string -> Js.outcome Api.Response) (tr : list Api.call) :
  exists calls,
    snd (Api.loadUserData E fetch tr) =
      (tr ++ calls ++ [Api.setLoading false])%list /\
    (forall loading, ~ In (Api.setLoading loading) calls).
Proof.
  rewrite loadUserData_cases.
  destruct (fetchUser_trace E fetch "123" tr) as (logged & Htrace & Hlogged).
  assert (Hno : forall loading, ~ In (Api.setLoading loading) logged).
  { intros loading Hin. destruct (Hlogged _ Hin) as (label & e & Heq).
    discriminate Heq. }
  destruct (Api.fetchUser E fetch "123" tr) as [[user | e] tr'];
    simpl in Htrace; subst tr'.
  - exists (logged ++ [Api.setUser user])%list. split.
    + simpl. rewrite <- !app_assoc. reflexivity.
    + intros loading Hin. apply in_app_or in Hin as [Hin | [Hin | []]].
      * exact (Hno _ Hin).
      * discriminate Hin.
  - destruct (Js.get E e "message") as [message | e'].
    + exists (logged ++ [Api.setError message])%list. split.
      * simpl. rewrite <- !app_assoc. reflexivity.
      * intros loading Hin. apply in_app_or in Hin as [Hin | [Hin | []]].
        -- exact (Hno _ Hin).
        -- discriminate Hin.
    + exists logged. split.
      * simpl. rewrite <- !app_assoc. reflexivity.
      * exact Hno.
Qed.



(** X14.  [setUser] is called with the user [fetchUser] returned, and in no
    other case: never with another user, and never when [fetchUser]
    throws. *)
Theorem setUser_iff_fetched (E : Js.engine) (fetch : string -> Js.outcome Api.Response)
    (user : Api.User) :
  In (Api.setUser user) (snd (Api.loadUserData E fetch [])) <->
  fst (Api.fetchUser E fetch "123" []) = Js.Return user.
Proof.
  rewrite loadUserData_cases.
  destruct (fetchUser_trace E fetch "123" []) as (logged & Htrace & Hlogged).
  assert (Hno : ~ In (Api.setUser user) logged).
  { intros Hin. destruct (Hlogged _ Hin) as (label & e & Heq).
    discriminate Heq. }
  destruct (Api.fetchUser E fetch "123" []) as [[fetched | e] tr'];
    simpl in Htrace; subst tr'; simpl.
  - rewrite in_app_iff. simpl. split.
    + intros [Hin | [[= ->] | [Hin | []]]];
        [contradiction | reflexivity | discriminate Hin].
    + intros [= ->]. right. left. reflexivity.
  - destruct (Js.get E e "message") as [message | e']; simpl;
      rewrite in_app_iff; simpl; split;
      try (intros H; discriminate H).
    + intros [Hin | [Hin | [Hin | []]]];
        [contradiction | discriminate Hin | discriminate Hin].
    + intros [Hin | [Hin | []]]; [contradiction | discriminate Hin].
Qed.


(** ** [updateField]: what happens to the errors, and how updates compose *)

Lemma spread_spread (f : Form.LoginForm) (k : Form.key)
    (v v' : Form.fieldType k) :
  Form.spread (Form.spread f k v) k v' = Form.spread f k v'.
Proof. destruct k; reflexivity. Qed.

Lemma spread_commute (f : Form.LoginForm) (k k' : Form.key)
    (v : Form.fieldType k) (v' : Form.fieldType k') :
  k <> k' ->
  Form.spread (Form.spread f k' v') k v = Form.spread (Form.spread f k v) k' v'.
Proof. destruct k, k'; intros Hne; try reflexivity; contradiction. Qed.

(** X15.  After [updateField(k, v)] the field [k] shows no error: the
    entry for [k] reads falsy, whatever it held before. *)
Theorem updateField_clears_error (f : Form.LoginForm)
    (errs : gmap Form.key (option string)) (k : Form.key)
    (v : Form.fieldType k) :
  Js.truthy
    (Form.read (Form.errors (Form.updateField errs k v (Form.mkState f errs))) k)
  = false.
Proof.
  rewrite updateField_state. simpl.
  destruct (Js.truthy (Form.read errs k)) eqn:Htruthy; [| exact Htruthy].
  unfold Form.read. rewrite lookup_insert_eq. reflexivity.
Qed.

(** X16.  [updateField] only ever clears: the error map has the same keys
    after it as before, and every message found in the map afterwards was
    there before, under the same key. *)
Theorem updateField_adds_no_error (f : Form.LoginForm)
    (errs : gmap Form.key (option string)) (k : Form.key)
    (v : Form.fieldType k) :
  dom (Form.errors (Form.updateField errs k v (Form.mkState f errs))) = dom errs /\
  (forall k' message,
     Form.errors (Form.updateField errs k v (Form.mkState f errs)) !! k' =
       Some (Some message) ->
     errs !! k' = Some (Some message)).
Proof.
  rewrite updateField_state. simpl.
  destruct (Js.truthy (Form.read errs k)) eqn:Htruthy; [| auto].
  apply truthy_read_present in Htruthy as (old & Hk & _).
  split.
  - rewrite dom_insert_L.
    apply subseteq_union_1_L, singleton_subseteq_l, elem_of_dom. eauto.
  - intros k' message. destruct (decide (k = k')) as [<- | Hne].
    + rewrite lookup_insert_eq. discriminate.
    + rewrite lookup_insert_ne by assumption. auto.
Qed.

(** X17.  Within one render, updates of two different fields commute: the
    form and the error map end the same whichever handler call comes
    first. *)
Theorem updateField_commute (seen : gmap Form.key (option string))
    (k k' : Form.key) (v : Form.fieldType k) (v' : Form.fieldType k')
    (st : Form.State) :
  k <> k' ->
  Form.updateField seen k v (Form.updateField seen k' v' st) =
    Form.updateField seen k' v' (Form.updateField seen k v st).
Proof.
  intros Hne. rewrite !updateField_any_render. simpl.
  rewrite (spread_commute _ k k' v v' Hne). f_equal.
  destruct (Js.truthy (Form.read seen k)), (Js.truthy (Form.read seen k'));
    try reflexivity.
  apply insert_insert_ne. congruence.
Qed.

Lemma updateField_commute_witness :
  Form.updateField {[ Form.key_email := Some "required" ]} Form.key_email "a@b.c"
    (Form.updateField {[ Form.key_email := Some "required" ]}
       Form.key_rememberMe true
       (Form.mkState (Form.mkLoginForm "" "" false)
          {[ Form.key_email := Some "required" ]})) =
  Form.updateField {[ Form.key_email := Some "required" ]}
    Form.key_rememberMe true
    (Form.updateField {[ Form.key_email := Some "required" ]} Form.key_email
       "a@b.c"
       (Form.mkState (Form.mkLoginForm "" "" false)
          {[ Form.key_email := Some "required" ]})).
Proof.
  apply (updateField_commute {[ Form.key_email := Some "required" ]}
           Form.key_email Form.key_rememberMe "a@b.c" true).
  discriminate.
Defined.

(** X18.  Within one render, the last update of a field wins: updating the
    same field twice leaves the state that the second update alone would
    leave. *)
Theorem updateField_last_wins (seen : gmap Form.key (option string))
    (k : Form.key) (v v' : Form.fieldType k) (st : Form.State) :
  Form.updateField seen k v' (Form.updateField seen k v st) =
    Form.updateField seen k v' st.
Proof.
  rewrite !updateField_any_render. simpl. rewrite spread_spread. f_equal.
  destruct (Js.truthy (Form.read seen k)); [| reflexivity].
  apply insert_insert_eq.
Qed.


(** ** [Greeting]: the optional age *)

(** X19.  [Greeting] shows the age sentence, with the age as the engine
    prints numbers, when an age is given that is neither a zero nor
    [NaN], and the empty string otherwise: an age of [0], of [-0] or of
    [NaN] renders like no age at all. *)
Theorem Greeting_age_sentence (E : Js.engine) (handler : Type)
    (name : string) (age : option float) (onPress : handler) :
  (age = None \/
   (exists n, age = Some n /\ (is_zero n = true \/ is_nan n = true)) ->
   Components.Greeting E handler name age onPress =
     Components.TouchableOpacity handler onPress
       [ Components.Text handler
           [ Js.PStr "Hello, "; Js.PStr name; Js.PStr "! "; Js.PStr "" ] ]) /\
  (forall n, age = Some n ->
   is_zero n = false -> is_nan n = false ->
   Components.Greeting E handler name age onPress =
     Components.TouchableOpacity handler onPress
       [ Components.Text handler
           [ Js.PStr "Hello, "; Js.PStr name; Js.PStr "! ";
             Js.PStr ("You are " +:+ Js.numberToString E n +:+ " years old.") ] ]).
Proof.
  split.
  - intros [-> | (n & -> & Hn)]; [reflexivity |].
    unfold Components.Greeting, Components.optional, Js.truthy.
    destruct Hn as [-> | ->]; [rewrite orb_true_r | ]; reflexivity.
  - intros n -> Hzero Hnan.
    unfold Components.Greeting, Components.optional, Js.truthy.
    rewrite Hzero, Hnan. reflexivity.
Qed.

Example Greeting_zero (E : Js.engine) :
  Components.Greeting E unit "Ada" (Some 0%float) tt =
  Components.Greeting E unit "Ada" None tt /\
  Components.Greeting E unit "Ada" (Some (-0)%float) tt =
  Components.Greeting E unit "Ada" None tt /\
  Components.Greeting E unit "Ada" (Some (0 / 0)%float) tt =
  Components.Greeting E unit "Ada" None tt.
Proof. repeat split. Qed.

(** ** [getLocation]: when the position is asked for *)

Lemma getLocation_cases (number : Type) (permission : Js.outcome string)
    (position : Js.outcome (Expo.LocationObject number))
    (tr : list (Expo.call number)) :
  Expo.getLocation number permission position tr =
    match permission with
    | Js.Throw e =>
        (Js.Throw e, (tr ++ [Expo.requestForegroundPermissionsAsync number])%list)
    | Js.Return status =>
        if String.eqb status "granted" then
          match position with
          | Js.Throw e =>
              (Js.Throw e,
               (tr ++ [Expo.requestForegroundPermissionsAsync number;
                       Expo.getCurrentPositionAsync number])%list)
          | Js.Return location =>
              (Js.Return tt,
               (tr ++ [Expo.requestForegroundPermissionsAsync number;
                       Expo.getCurrentPositionAsync number;
                       Expo.console_log number
                         [Expo.LNum number (Expo.latitude number location);
                          Expo.LNum number (Expo.longitude number location)]])%list)
          end
        else
          (Js.Return tt,
           (tr ++ [Expo.requestForegroundPermissionsAsync number;
                   Expo.console_log number
                     [Expo.LStr number "Permission denied"]])%list)
    end.
Proof.
  unfold Expo.getLocation, mbind, Expo.M_bind, Expo.perform.
  destruct permission as [status | e]; [| reflexivity].
  destruct (String.eqb status "granted"); simpl.
  - destruct position as [location | e]; rewrite <- ?app_assoc; reflexivity.
  - rewrite <- app_assoc. reflexivity.
Qed.

(** X20.  [getLocation] asks for the position only with the permission:
    [getCurrentPositionAsync] is called exactly when the permission request
    settles with the status ['granted'], and ['Permission denied'] is
    logged exactly when it settles with any other status. *)
Theorem getLocation_needs_permission (number : Type)
    (permission : Js.outcome string)
    (position : Js.outcome (Expo.LocationObject number)) :
  (In (Expo.getCurrentPositionAsync number)
      (snd (Expo.getLocation number permission position [])) <->
   permission = Js.Return "granted") /\
  (In (Expo.console_log number [Expo.LStr number "Permission denied"])
      (snd (Expo.getLocation number permission position [])) <->
   exists status, permission = Js.Return status /\ status <> "granted").
Proof.
  rewrite getLocation_cases.
  destruct permission as [status | e].
  - destruct (String.eqb status "granted") eqn:Hstatus.
    + apply String.eqb_eq in Hstatus. subst status.
      destruct position as [location | e]; simpl; split; split;
        try (intros _; reflexivity);
        try (intros _; right; left; reflexivity);
        try (intros (status & [= <-] & Hne); contradiction);
        intros [H | [H | [H | []]]] || intros [H | [H | []]];
        discriminate H.
    + apply String.eqb_neq in Hstatus. simpl. split; split.
      * intros [H | [H | []]]; discriminate H.
      * intros [= ->]. contradiction.
      * intros _. exists status. auto.
      * intros _. right. left. reflexivity.
  - simpl. split; split.
    + intros [H | []]. discriminate H.
    + discriminate.
    + intros [H | []]. discriminate H.
    + intros (status & H & _). discriminate H.
Qed.

(** ** [useItemHandlers]: the sorted items *)

Section SortFacts.

Context {A : Type} (compareFn : A -> A -> Z).
Hypothesis Hconsistent : Hooks.consistent compareFn.

Lemma compareFn_flip (a b : A) : compareFn a b > 0 -> compareFn b a < 0.
Proof.
  destruct Hconsistent as [Hflip _]. specialize (Hflip a b).
  destruct (Z.sgn_spec (compareFn a b)) as [[? ?] | [[? ?] | [? ?]]],
           (Z.sgn_spec (compareFn b a)) as [[? ?] | [[? ?] | [? ?]]]; lia.
Qed.

Lemma compareFn_flip_zero (a b : A) : compareFn a b = 0 -> compareFn b a = 0.
Proof.
  destruct Hconsistent as [Hflip _]. specialize (Hflip a b).
  destruct (Z.sgn_spec (compareFn a b)) as [[? ?] | [[? ?] | [? ?]]],
           (Z.sgn_spec (compareFn b a)) as [[? ?] | [[? ?] | [? ?]]]; lia.
Qed.

Lemma compareFn_flip_neg (a b : A) : compareFn a b < 0 -> compareFn b a > 0.
Proof.
  destruct Hconsistent as [Hflip _]. specialize (Hflip a b).
  destruct (Z.sgn_spec (compareFn a b)) as [[? ?] | [[? ?] | [? ?]]],
           (Z.sgn_spec (compareFn b a)) as [[? ?] | [[? ?] | [? ?]]]; lia.
Qed.

(** Elements that compare equal to a third compare equal to each other. *)
Lemma compareFn_same_class (z x y : A) :
  compareFn z x = 0 -> compareFn z y = 0 -> compareFn x y = 0.
Proof.
  intros Hzx Hzy.
  pose proof (compareFn_flip_zero _ _ Hzx) as Hxz.
  pose proof (compareFn_flip_zero _ _ Hzy) as Hyz.
  destruct Hconsistent as [_ Htrans].
  assert (Hxy : compareFn x y <= 0) by (apply (Htrans x z y); lia).
  assert (Hyx : compareFn y x <= 0) by (apply (Htrans y z x); lia).
  pose proof (compareFn_flip_neg x y). lia.
Qed.

Lemma insert_Permutation (x : A) (l : list A) :
  Permutation (Hooks.insert compareFn x l) (x :: l).
Proof.
  induction l as [| y rest IH]; simpl; [reflexivity |].
  destruct (compareFn x y <=? 0)%Z; [reflexivity |].
  rewrite IH. apply perm_swap.
Qed.

Lemma sort_Permutation (l : list A) : Permutation (Hooks.sort compareFn l) l.
Proof.
  induction l as [| x rest IH]; simpl; [reflexivity |].
  rewrite insert_Permutation, IH. reflexivity.
Qed.

Lemma insert_StronglySorted (x : A) (l : list A) :
  StronglySorted (fun a b => compareFn a b <= 0) l ->
  StronglySorted (fun a b => compareFn a b <= 0) (Hooks.insert compareFn x l).
Proof.
  induction 1 as [| y rest Hrest IH Hy]; simpl.
  - repeat constructor.
  - destruct (Z.leb_spec (compareFn x y) 0) as [Hle | Hgt].
    + constructor; [constructor; assumption |].
      constructor; [exact Hle |].
      destruct Hconsistent as [_ Htrans].
      eapply List.Forall_impl; [| exact Hy].
      intros b Hb. exact (Htrans x y b Hle Hb).
    + constructor; [exact IH |].
      eapply Permutation_Forall; [symmetry; apply insert_Permutation |].
      constructor; [| exact Hy].
      pose proof (compareFn_flip x y). lia.
Qed.

Lemma sort_StronglySorted (l : list A) :
  StronglySorted (fun a b => compareFn a b <= 0) (Hooks.sort compareFn l).
Proof.
  induction l as [| x rest IH]; simpl; [constructor |].
  apply insert_StronglySorted, IH.
Qed.

Lemma insert_filter_class (z x : A) (l : list A) :
  List.filter (fun y => (compareFn z y =? 0)%Z) (Hooks.insert compareFn x l) =
    List.filter (fun y => (compareFn z y =? 0)%Z) (x :: l).
Proof.
  induction l as [| y rest IH]; [reflexivity |].
  simpl Hooks.insert.
  destruct (Z.leb_spec (compareFn x y) 0) as [Hle | Hgt]; [reflexivity |].
  change (List.filter (fun y0 => (compareFn z y0 =? 0)%Z)
            (y :: Hooks.insert compareFn x rest))
    with (if (compareFn z y =? 0)%Z
          then y :: List.filter (fun y0 => (compareFn z y0 =? 0)%Z)
                      (Hooks.insert compareFn x rest)
          else List.filter (fun y0 => (compareFn z y0 =? 0)%Z)
                 (Hooks.insert compareFn x rest)).
  rewrite IH. simpl.
  destruct (Z.eqb_spec (compareFn z x) 0) as [Hx | Hx];
    destruct (Z.eqb_spec (compareFn z y) 0) as [Hy | Hy]; try reflexivity.
  pose proof (compareFn_same_class z x y Hx Hy). lia.
Qed.

Lemma sort_filter_class (z : A) (l : list A) :
  List.filter (fun y => (compareFn z y =? 0)%Z) (Hooks.sort compareFn l) =
    List.filter (fun y => (compareFn z y =? 0)%Z) l.
Proof.
  induction l as [| x rest IH]; [reflexivity |].
  simpl Hooks.sort. rewrite insert_filter_class. simpl. rewrite IH.
  reflexivity.
Qed.

End SortFacts.

Lemma byName_consistent (localeCompare : string -> string -> Z) :
  Hooks.consistent localeCompare ->
  Hooks.consistent (Hooks.byName localeCompare).
Proof.
  intros [Hflip Htrans]. split; unfold Hooks.byName.
  - intros a b. apply Hflip.
  - intros a b c. apply Htrans.
Qed.

Lemma byLength_consistent : Hooks.consistent Hooks.byLength.
Proof.
  split; unfold Hooks.byLength.
  - intros a b. rewrite <- Z.sgn_opp. f_equal. lia.
  - intros a b c. lia.
Qed.

(** X21.  For a consistent [localeCompare], [sortedItems] holds the items
    it was given, each as often as it was given, in ascending order of
    [name]: every item compares not greater than every item after it. *)
Theorem sortedItems_sorted (localeCompare : string -> string -> Z)
    (items : list Hooks.Item) :
  Hooks.consistent localeCompare ->
  Permutation (Hooks.sortedItems localeCompare items) items /\
  StronglySorted
    (fun a b => localeCompare (Hooks.name a) (Hooks.name b) <= 0)
    (Hooks.sortedItems localeCompare items).
Proof.
  intros Hc. split.
  - apply sort_Permutation.
  - apply (sort_StronglySorted (Hooks.byName localeCompare)
             (byName_consistent _ Hc)).
Qed.

Lemma sortedItems_sorted_witness :
  Permutation
    (Hooks.sortedItems Hooks.byLength
       [Hooks.mkItem "1" "pear"; Hooks.mkItem "2" "fig"; Hooks.mkItem "3" "kiwi"])
    [Hooks.mkItem "1" "pear"; Hooks.mkItem "2" "fig"; Hooks.mkItem "3" "kiwi"] /\
  StronglySorted
    (fun a b => Hooks.byLength (Hooks.name a) (Hooks.name b) <= 0)
    (Hooks.sortedItems Hooks.byLength
       [Hooks.mkItem "1" "pear"; Hooks.mkItem "2" "fig"; Hooks.mkItem "3" "kiwi"]).
Proof.
  exact (sortedItems_sorted Hooks.byLength
           [Hooks.mkItem "1" "pear"; Hooks.mkItem "2" "fig"; Hooks.mkItem "3" "kiwi"]
           byLength_consistent).
Defined.

(** X22.  The sort is stable: for a consistent [localeCompare], the items
    whose names compare equal to a given name stand in [sortedItems] in
    the order they had in [items]. *)
Theorem sortedItems_stable (localeCompare : string -> string -> Z)
    (items : list Hooks.Item) (n : string) :
  Hooks.consistent localeCompare ->
  List.filter (fun item => (localeCompare n (Hooks.name item) =? 0)%Z)
    (Hooks.sortedItems localeCompare items) =
  List.filter (fun item => (localeCompare n (Hooks.name item) =? 0)%Z) items.
Proof.
  intros Hc.
  exact (sort_filter_class (Hooks.byName localeCompare)
           (byName_consistent _ Hc) (Hooks.mkItem "" n) items).
Qed.

Lemma sortedItems_stable_witness :
  List.filter (fun item => (Hooks.byLength "abcd" (Hooks.name item) =? 0)%Z)
    (Hooks.sortedItems Hooks.byLength
       [Hooks.mkItem "1" "pear"; Hooks.mkItem "2" "fig"; Hooks.mkItem "3" "kiwi"]) =
  List.filter (fun item => (Hooks.byLength "abcd" (Hooks.name item) =? 0)%Z)
    [Hooks.mkItem "1" "pear"; Hooks.mkItem "2" "fig"; Hooks.mkItem "3" "kiwi"].
Proof.
  exact (sortedItems_stable Hooks.byLength
           [Hooks.mkItem "1" "pear"; Hooks.mkItem "2" "fig"; Hooks.mkItem "3" "kiwi"]
           "abcd" byLength_consistent).
Defined.

Example sortedItems_run :
  Hooks.sortedItems Hooks.byLength
    [Hooks.mkItem "1" "pear"; Hooks.mkItem "2" "fig"; Hooks.mkItem "3" "kiwi"] =
    [Hooks.mkItem "2" "fig"; Hooks.mkItem "1" "pear"; Hooks.mkItem "3" "kiwi"].
Proof. reflexivity. Qed.


(** ** The order of calls in the [async] functions *)





